(** * excel-to-pdf: the conversion panel and the assistant panel

    A shallow embedding of [src/components/AIAssistant.tsx] and
    [src/components/WebConverter.tsx].

    - JavaScript strings are [string]s, a character outside ASCII being held
      as its UTF-8 bytes; every keyword, file extension and message the
      components compare against is ASCII, so [toLowerCase] is the ASCII case
      folding and [length] the number of characters.
    - JavaScript numbers are IEEE-754 binary64 values: the progress counter is
      a primitive [float], added and compared with the kernel's operations.
    - React state cells ([useState]) and refs ([useRef]) are fields of a state
      record; an event handler is a function from state to state that performs
      the handler's writes in source order.
    - The browser is part of the state: the table of active intervals
      ([window.setInterval] / [clearInterval]), the downloads that were
      triggered, and the calls made to the host's [onErrorUpdate]. *)

From Stdlib Require Import Bool Arith List Lia Ascii String PrimFloat.
Import ListNotations.

Set Warnings "-inexact-float".

Open Scope string_scope.

(** ** JavaScript string operations used by the components *)

Module JS.

(** [String.prototype.toLowerCase], on the ASCII letters. *)
Definition lower_char (c : ascii) : ascii :=
  let n := nat_of_ascii c in
  if ((65 <=? n) && (n <=? 90))%nat then ascii_of_nat (n + 32) else c.

Fixpoint toLowerCase (s : string) : string :=
  match s with
  | EmptyString => EmptyString
  | String c s' => String (lower_char c) (toLowerCase s')
  end.

(** [s.startsWith(p)]. *)
Fixpoint startsWith (s p : string) {struct p} : bool :=
  match p, s with
  | EmptyString, _ => true
  | String _ _, EmptyString => false
  | String a p', String b s' => Ascii.eqb a b && startsWith s' p'
  end.

(** [s.includes(p)]: [p] occurs in [s] at some position. *)
Fixpoint includes (s p : string) : bool :=
  startsWith s p ||
  match s with
  | EmptyString => false
  | String _ s' => includes s' p
  end.

(** [s.slice(n)]. *)
Fixpoint slice (n : nat) (s : string) : string :=
  match n, s with
  | O, _ => s
  | S _, EmptyString => EmptyString
  | S n', String _ s' => slice n' s'
  end.

(** [s.replace(pat, rep)] with a string pattern: only the first occurrence of
    [pat] is replaced ([rep] holds no [$] here). *)
Fixpoint replace (s pat rep : string) : string :=
  if startsWith s pat then rep ++ slice (String.length pat) s
  else match s with
       | EmptyString => EmptyString
       | String c s' => String c (replace s' pat rep)
       end.

(** [s.endsWith(p)], used only to phrase the suffix reading of the file-name
    rule. *)
Fixpoint endsWith (s p : string) : bool :=
  String.eqb s p ||
  match s with
  | EmptyString => false
  | String _ s' => endsWith s' p
  end.

(** The class [\s] restricted to ASCII: tab, line feed, vertical tab, form
    feed, carriage return and space. *)
Definition is_space (c : ascii) : bool :=
  let n := nat_of_ascii c in
  (((9 <=? n) && (n <=? 13)) || (n =? 32))%nat.

(** [s.split(/\s+/)]: [cur] is the piece being read, [in_sep] says that the
    previous character belonged to a separator run. *)
Fixpoint split_spaces_from (s cur : string) (in_sep : bool) : list string :=
  match s with
  | EmptyString => [cur]
  | String c s' =>
      if is_space c
      then if in_sep then split_spaces_from s' cur true
           else cur :: split_spaces_from s' EmptyString true
      else split_spaces_from s' (cur ++ String c EmptyString) false
  end.

Definition split_spaces (s : string) : list string :=
  split_spaces_from s EmptyString false.

(** White space as [String.prototype.trim] understands it (WhiteSpace and
    LineTerminator). A character outside ASCII is held as its UTF-8 bytes:
    U+00A0 in two bytes; U+1680, U+2000 to U+200A, U+2028, U+2029, U+202F,
    U+205F, U+3000 and U+FEFF in three. *)
Definition byte_is (n : nat) (c : ascii) : bool := Nat.eqb (nat_of_ascii c) n.

Definition space2 (c1 c2 : ascii) : bool := byte_is 194 c1 && byte_is 160 c2.

Definition space3 (c1 c2 c3 : ascii) : bool :=
  let n3 := nat_of_ascii c3 in
  (byte_is 225 c1 && byte_is 154 c2 && byte_is 128 c3)
  || (byte_is 226 c1 && byte_is 128 c2
      && (((128 <=? n3) && (n3 <=? 138)) || (n3 =? 168) || (n3 =? 169) || (n3 =? 175))%nat)
  || (byte_is 226 c1 && byte_is 129 c2 && byte_is 159 c3)
  || (byte_is 227 c1 && byte_is 128 c2 && byte_is 128 c3)
  || (byte_is 239 c1 && byte_is 187 c2 && byte_is 191 c3).

(** [s] is empty or made of white-space characters only. *)
Fixpoint blank (s : string) : bool :=
  match s with
  | EmptyString => true
  | String c1 r1 =>
      if is_space c1 then blank r1
      else match r1 with
           | EmptyString => false
           | String c2 r2 =>
               if space2 c1 c2 then blank r2
               else match r2 with
                    | EmptyString => false
                    | String c3 r3 => if space3 c1 c2 c3 then blank r3 else false
                    end
           end
  end.

(** [s.trim()]: the white space at both ends removed. *)
Fixpoint trimStart (s : string) : string :=
  match s with
  | EmptyString => EmptyString
  | String c1 r1 =>
      if is_space c1 then trimStart r1
      else match r1 with
           | EmptyString => s
           | String c2 r2 =>
               if space2 c1 c2 then trimStart r2
               else match r2 with
                    | EmptyString => s
                    | String c3 r3 => if space3 c1 c2 c3 then trimStart r3 else s
                    end
           end
  end.

(** The longest suffix made of white space is dropped. *)
Fixpoint trimEnd (s : string) : string :=
  match s with
  | EmptyString => EmptyString
  | String c s' => if blank s then EmptyString else String c (trimEnd s')
  end.

Definition trim (s : string) : string := trimEnd (trimStart s).

(** Truthiness of a [string | null | undefined] value. *)
Definition truthy (v : option string) : bool :=
  match v with
  | Some s => negb (String.eqb s EmptyString)
  | None => false
  end.

(** [a !== b] on [string | null] values. *)
Definition strict_neq (a b : option string) : bool :=
  match a, b with
  | Some x, Some y => negb (String.eqb x y)
  | None, None => false
  | _, _ => true
  end.

Definition quote : string := String "034"%char EmptyString.
Definition nl : string := String "010"%char EmptyString.

(** [Math.min(a, b)] on two numbers. *)
Definition Math_min (a b : float) : float :=
  if is_nan a || is_nan b then nan
  else if ltb a b then a
  else if ltb b a then b
  else if get_sign a then a else b.

End JS.

(** ** AIAssistant.tsx *)

Module AIAssistant.

Inductive Role := user | ai.

Record Message := { role : Role; text : string }.

Definition remediation_reply : string :=
  "I recommend verifying the PDF structure. If the extraction fails, try flattening the PDF or ensuring it's not password protected.".

Definition format_reply : string :=
  "The system uses high-fidelity extraction for both formats. Excel is optimized for tabular data, while Word preserves layout structures.".

Definition usage_reply : string :=
  "Upload your document in the Processing Unit, select your target format (.XLSX or .DOCX), and initiate the conversion.".

Definition generic_reply : string :=
  "Command received. The system is operating within normal parameters. Please proceed with your document conversion.".

Definition getStaticResponse (query : string) : string :=
  let q := JS.toLowerCase query in
  if JS.includes q "error" || JS.includes q "fail" then remediation_reply
  else if JS.includes q "excel" || JS.includes q "word" then format_reply
  else if JS.includes q "how" || JS.includes q "help" then usage_reply
  else generic_reply.

(** The component: the transcript, the input box, the pending flag, the ref
    [errorAcknowledged], the dependency array [[errorState]] of the error
    effect as of the last commit ([None] before the first render), and the
    browser's pending timeouts: each handle with the [userMessage] its
    callback captured. *)
Record State := {
  messages : list Message;
  input : string;
  loading : bool;
  errorAcknowledged : option string;
  lastDeps : option (option string);
  timeouts : list (nat * string);
  nextHandle : nat
}.

Definition initial : State :=
  {| messages :=
       [ {| role := ai;
            text := "System Guide active. I can assist with your document conversion parameters." |} ];
     input := "";
     loading := false;
     errorAcknowledged := None;
     lastDeps := None;
     timeouts := [];
     nextHandle := 1 |}.

Definition setMessages (f : list Message -> list Message) (st : State) : State :=
  {| messages := f (messages st); input := input st; loading := loading st;
     errorAcknowledged := errorAcknowledged st; lastDeps := lastDeps st;
     timeouts := timeouts st; nextHandle := nextHandle st |}.

Definition setInput (v : string) (st : State) : State :=
  {| messages := messages st; input := v; loading := loading st;
     errorAcknowledged := errorAcknowledged st; lastDeps := lastDeps st;
     timeouts := timeouts st; nextHandle := nextHandle st |}.

Definition setLoading (v : bool) (st : State) : State :=
  {| messages := messages st; input := input st; loading := v;
     errorAcknowledged := errorAcknowledged st; lastDeps := lastDeps st;
     timeouts := timeouts st; nextHandle := nextHandle st |}.

Definition set_errorAcknowledged (v : option string) (st : State) : State :=
  {| messages := messages st; input := input st; loading := loading st;
     errorAcknowledged := v; lastDeps := lastDeps st;
     timeouts := timeouts st; nextHandle := nextHandle st |}.

Definition set_lastDeps (v : option (option string)) (st : State) : State :=
  {| messages := messages st; input := input st; loading := loading st;
     errorAcknowledged := errorAcknowledged st; lastDeps := v;
     timeouts := timeouts st; nextHandle := nextHandle st |}.

Definition set_timeouts (v : list (nat * string)) (st : State) : State :=
  {| messages := messages st; input := input st; loading := loading st;
     errorAcknowledged := errorAcknowledged st; lastDeps := lastDeps st;
     timeouts := v; nextHandle := nextHandle st |}.

(** [setTimeout(callback, 600)]: a fresh handle for the callback. *)
Definition setTimeout (userMessage : string) (st : State) : State :=
  {| messages := messages st; input := input st; loading := loading st;
     errorAcknowledged := errorAcknowledged st; lastDeps := lastDeps st;
     timeouts := timeouts st ++ [(nextHandle st, userMessage)];
     nextHandle := S (nextHandle st) |}.

Definition alert_text (errorState : string) : string :=
  "SYSTEM_ALERT: Detected an extraction anomaly. Status: " ++ JS.quote ++ errorState ++ JS.quote
  ++ "." ++ JS.nl ++ JS.nl ++ "Suggested Protocol:" ++ JS.nl
  ++ "1. Check document integrity." ++ JS.nl
  ++ "2. Verify format compatibility." ++ JS.nl
  ++ "3. Retry the operation.".

Definition alert (errorState : string) : Message :=
  {| role := ai; text := alert_text errorState |}.

(** The body of the effect "Proactive error help". *)
Definition errorEffect (errorState : option string) (st : State) : State :=
  match errorState with
  | Some e =>
      if JS.truthy errorState && JS.strict_neq errorState (errorAcknowledged st)
      then let st := set_errorAcknowledged errorState st in
           setMessages (fun prev => (prev ++ [alert e])%list) st
      else st
  | None => st
  end.

Definition deps_changed (st : State) (errorState : option string) : bool :=
  match lastDeps st with
  | None => true
  | Some prev =>
      match prev, errorState with
      | Some x, Some y => negb (String.eqb x y)
      | None, None => false
      | _, _ => true
      end
  end.

(** A render with the prop [errorState]: React runs the effect on mount and
    whenever the dependency differs from the one of the previous commit. *)
Definition deliver (errorState : option string) (st : State) : State :=
  if deps_changed st errorState
  then errorEffect errorState (set_lastDeps (Some errorState) st)
  else st.

Definition deliver_all (signals : list (option string)) (st : State) : State :=
  fold_left (fun acc v => deliver v acc) signals st.

(** [handleSubmit], with the [input] and [loading] of the current render. *)
Definition handleSubmit (st : State) : State :=
  if String.eqb (JS.trim (input st)) "" || loading st then st
  else
    let userMessage := JS.trim (input st) in
    let st := setInput "" st in
    let st := setMessages (fun prev => (prev ++ [ {| role := user; text := userMessage |} ])%list) st in
    let st := setLoading true st in
    setTimeout userMessage st.

(** The callback [handleSubmit] hands to [setTimeout]. *)
Definition replyCallback (userMessage : string) (st : State) : State :=
  let response := getStaticResponse userMessage in
  let st := setMessages (fun prev => (prev ++ [ {| role := ai; text := response |} ])%list) st in
  setLoading false st.

Fixpoint find_timeout (h : nat) (tbl : list (nat * string)) : option string :=
  match tbl with
  | [] => None
  | (k, m) :: rest => if Nat.eqb k h then Some m else find_timeout h rest
  end.

(** The browser fires timeout [h]: its callback runs once and is gone. *)
Definition fireTimeout (h : nat) (st : State) : State :=
  match find_timeout h (timeouts st) with
  | Some userMessage =>
      replyCallback userMessage
        (set_timeouts (filter (fun e => negb (Nat.eqb (fst e) h)) (timeouts st)) st)
  | None => st
  end.

(** What can happen to the panel: typing ([onChange] of the input box), a
    submit of the form, a pending timeout firing, and a render with a new
    [errorState] prop. *)
Inductive Event :=
| Change (value : string)
| Submit
| TimeoutFires (h : nat)
| ErrorState (errorState : option string).

Definition dispatch (e : Event) (st : State) : State :=
  match e with
  | Change value => setInput value st
  | Submit => handleSubmit st
  | TimeoutFires h => fireTimeout h st
  | ErrorState v => deliver v st
  end.

Definition run (events : list Event) (st : State) : State :=
  fold_left (fun acc e => dispatch e acc) events st.

(** The alert messages of a transcript. *)
Definition is_alert (m : Message) : bool :=
  match role m with
  | ai => JS.startsWith (text m) "SYSTEM_ALERT:"
  | user => false
  end.

Definition alert_count (st : State) : nat :=
  List.length (filter is_alert (messages st)).

(** The distinct non-null values among the delivered signals. *)
Fixpoint non_null (signals : list (option string)) : list string :=
  match signals with
  | [] => []
  | Some e :: l => e :: non_null l
  | None :: l => non_null l
  end.

Definition distinct_non_null (signals : list (option string)) : nat :=
  List.length (nodup string_dec (non_null signals)).

(** The values the panel surfaces, following the description of
    [onErrorSignal]: a value is surfaced when it is non-null, non-empty and
    differs from the last value surfaced before it. *)
Fixpoint surfaced (last : option string) (signals : list (option string)) : list string :=
  match signals with
  | [] => []
  | None :: l => surfaced last l
  | Some e :: l =>
      if String.eqb e EmptyString then surfaced last l
      else if JS.strict_neq (Some e) last then e :: surfaced (Some e) l
      else surfaced last l
  end.

(** The text [q] mentions the keyword [kw] in some letter case: a stretch of
    [q] folds to [kw]. *)
Definition mentions (q kw : string) : Prop :=
  exists pre mid post, q = pre ++ mid ++ post /\ JS.toLowerCase mid = kw.

End AIAssistant.

(** ** WebConverter.tsx *)

Module WebConverter.

Inductive Format := excel | word.

(** A [File] handed over by the file input: its name and its bytes. *)
Record File := { name : string; bytes : list Byte.byte }.

Record ErrorInfo := { message : string; detail : option string }.

(** *** The values the component passes to the SheetJS library ([XLSX]) *)

Record ColInfo := { wch : nat }.

(** A worksheet: the array of arrays it was made from and its ['!cols']. *)
Record WorkSheet := { aoa : list (list string); cols : option (list ColInfo) }.

(** A workbook: its sheets, in order, under their names. *)
Record WorkBook := { Sheets : list (string * WorkSheet) }.

Definition aoa_to_sheet (data : list (list string)) : WorkSheet :=
  {| aoa := data; cols := None |}.

Definition set_cols (widths : list ColInfo) (ws : WorkSheet) : WorkSheet :=
  {| aoa := aoa ws; cols := Some widths |}.

Definition book_new : WorkBook := {| Sheets := [] |}.

Definition book_append_sheet (wb : WorkBook) (ws : WorkSheet) (title : string) : WorkBook :=
  {| Sheets := Sheets wb ++ [(title, ws)] |}.

(** A part of a [Blob]: the array [XLSX.write(wb, { bookType: 'xlsx', type:
    'array' })] returns, kept as the workbook it serialises, or a string. *)
Inductive BlobPart :=
| XLSX_write (wb : WorkBook)
| Text (content : string).

Record Blob := { parts : list BlobPart; type : string }.

(** *** The two intervals of [startConversion]

    Each closure keeps its own variables: [prog], the file and the [format] of
    the render that started the run for the progress interval, [telIdx] for
    the telemetry interval. *)
Inductive Interval :=
| ProgressTick (prog : float) (selectedFile : File) (fmt : Format)
| TelemetryTick (telIdx : nat).

(** *** State

    Props ([format], whether the host passed [onErrorUpdate], and the values
    it was called with), the eight [useState] cells, the two refs, and the
    browser (active intervals by handle, the next handle [setInterval] returns,
    and the downloads triggered so far as [(a.download, blob)]). *)
Record State := {
  format : Format;
  onErrorUpdate : bool;
  errorUpdates : list (option string);
  file : option File;
  loading : bool;
  downloadReady : bool;
  error : option ErrorInfo;
  statusMessage : string;
  telemetry : string;
  simProgress : float;
  resultBlob : option Blob;
  progressTimer : option nat;
  telemetryTimer : option nat;
  intervals : list (nat * Interval);
  nextHandle : nat;
  downloads : list (string * Blob)
}.

Definition set_format (v : Format) (s : State) : State :=
  Build_State v (onErrorUpdate s) (errorUpdates s) (file s) (loading s)
    (downloadReady s) (error s) (statusMessage s) (telemetry s)
    (simProgress s) (resultBlob s) (progressTimer s) (telemetryTimer s)
    (intervals s) (nextHandle s) (downloads s).

Definition set_errorUpdates (v : list (option string)) (s : State) : State :=
  Build_State (format s) (onErrorUpdate s) v (file s) (loading s)
    (downloadReady s) (error s) (statusMessage s) (telemetry s)
    (simProgress s) (resultBlob s) (progressTimer s) (telemetryTimer s)
    (intervals s) (nextHandle s) (downloads s).

Definition setFile (v : option File) (s : State) : State :=
  Build_State (format s) (onErrorUpdate s) (errorUpdates s) v (loading s)
    (downloadReady s) (error s) (statusMessage s) (telemetry s)
    (simProgress s) (resultBlob s) (progressTimer s) (telemetryTimer s)
    (intervals s) (nextHandle s) (downloads s).

Definition setLoading (v : bool) (s : State) : State :=
  Build_State (format s) (onErrorUpdate s) (errorUpdates s) (file s) v
    (downloadReady s) (error s) (statusMessage s) (telemetry s)
    (simProgress s) (resultBlob s) (progressTimer s) (telemetryTimer s)
    (intervals s) (nextHandle s) (downloads s).

Definition setDownloadReady (v : bool) (s : State) : State :=
  Build_State (format s) (onErrorUpdate s) (errorUpdates s) (file s)
    (loading s) v (error s) (statusMessage s) (telemetry s) (simProgress s)
    (resultBlob s) (progressTimer s) (telemetryTimer s) (intervals s)
    (nextHandle s) (downloads s).

Definition setError (v : option ErrorInfo) (s : State) : State :=
  Build_State (format s) (onErrorUpdate s) (errorUpdates s) (file s)
    (loading s) (downloadReady s) v (statusMessage s) (telemetry s)
    (simProgress s) (resultBlob s) (progressTimer s) (telemetryTimer s)
    (intervals s) (nextHandle s) (downloads s).

Definition setStatusMessage (v : string) (s : State) : State :=
  Build_State (format s) (onErrorUpdate s) (errorUpdates s) (file s)
    (loading s) (downloadReady s) (error s) v (telemetry s) (simProgress s)
    (resultBlob s) (progressTimer s) (telemetryTimer s) (intervals s)
    (nextHandle s) (downloads s).

Definition setTelemetry (v : string) (s : State) : State :=
  Build_State (format s) (onErrorUpdate s) (errorUpdates s) (file s)
    (loading s) (downloadReady s) (error s) (statusMessage s) v
    (simProgress s) (resultBlob s) (progressTimer s) (telemetryTimer s)
    (intervals s) (nextHandle s) (downloads s).

Definition setSimProgress (v : float) (s : State) : State :=
  Build_State (format s) (onErrorUpdate s) (errorUpdates s) (file s)
    (loading s) (downloadReady s) (error s) (statusMessage s) (telemetry s) v
    (resultBlob s) (progressTimer s) (telemetryTimer s) (intervals s)
    (nextHandle s) (downloads s).

Definition setResultBlob (v : option Blob) (s : State) : State :=
  Build_State (format s) (onErrorUpdate s) (errorUpdates s) (file s)
    (loading s) (downloadReady s) (error s) (statusMessage s) (telemetry s)
    (simProgress s) v (progressTimer s) (telemetryTimer s) (intervals s)
    (nextHandle s) (downloads s).

Definition set_progressTimer (v : option nat) (s : State) : State :=
  Build_State (format s) (onErrorUpdate s) (errorUpdates s) (file s)
    (loading s) (downloadReady s) (error s) (statusMessage s) (telemetry s)
    (simProgress s) (resultBlob s) v (telemetryTimer s) (intervals s)
    (nextHandle s) (downloads s).

Definition set_telemetryTimer (v : option nat) (s : State) : State :=
  Build_State (format s) (onErrorUpdate s) (errorUpdates s) (file s)
    (loading s) (downloadReady s) (error s) (statusMessage s) (telemetry s)
    (simProgress s) (resultBlob s) (progressTimer s) v (intervals s)
    (nextHandle s) (downloads s).

Definition set_intervals (v : list (nat * Interval)) (s : State) : State :=
  Build_State (format s) (onErrorUpdate s) (errorUpdates s) (file s)
    (loading s) (downloadReady s) (error s) (statusMessage s) (telemetry s)
    (simProgress s) (resultBlob s) (progressTimer s) (telemetryTimer s) v
    (nextHandle s) (downloads s).

Definition set_nextHandle (v : nat) (s : State) : State :=
  Build_State (format s) (onErrorUpdate s) (errorUpdates s) (file s)
    (loading s) (downloadReady s) (error s) (statusMessage s) (telemetry s)
    (simProgress s) (resultBlob s) (progressTimer s) (telemetryTimer s)
    (intervals s) v (downloads s).

Definition set_downloads (v : list (string * Blob)) (s : State) : State :=
  Build_State (format s) (onErrorUpdate s) (errorUpdates s) (file s)
    (loading s) (downloadReady s) (error s) (statusMessage s) (telemetry s)
    (simProgress s) (resultBlob s) (progressTimer s) (telemetryTimer s)
    (intervals s) (nextHandle s) v.

(** The component as mounted by a host with the given props. *)
Definition initial (fmt : Format) (hasCallback : bool) : State :=
  {| format := fmt;
     onErrorUpdate := hasCallback;
     errorUpdates := [];
     file := None;
     loading := false;
     downloadReady := false;
     error := None;
     statusMessage := "";
     telemetry := "SYSTEM_IDLE";
     simProgress := 0%float;
     resultBlob := None;
     progressTimer := None;
     telemetryTimer := None;
     intervals := [];
     nextHandle := 1;
     downloads := [] |}.

(** Modelled from the spec: the host view, which is not among the sources,
    owns the format selection; its [setFormat] stores the value and the panel
    is rendered again with it as the [format] prop. *)
Definition setFormat (f : Format) (s : State) : State := set_format f s.

(** [if (onErrorUpdate) onErrorUpdate(v)]. *)
Definition call_onErrorUpdate (v : option string) (s : State) : State :=
  if onErrorUpdate s then set_errorUpdates (errorUpdates s ++ [v]) s else s.

(** *** The browser's interval table *)

Fixpoint find_interval (h : nat) (tbl : list (nat * Interval)) : option Interval :=
  match tbl with
  | [] => None
  | (k, cb) :: rest => if Nat.eqb k h then Some cb else find_interval h rest
  end.

(** The closure of interval [h] after its callback changed its variables. *)
Fixpoint store_interval (h : nat) (cb : Interval) (tbl : list (nat * Interval))
  : list (nat * Interval) :=
  match tbl with
  | [] => []
  | (k, old) :: rest =>
      if Nat.eqb k h then (k, cb) :: rest else (k, old) :: store_interval h cb rest
  end.

Definition setInterval (cb : Interval) (s : State) : nat * State :=
  let h := nextHandle s in
  (h, set_nextHandle (S h) (set_intervals (intervals s ++ [(h, cb)]) s)).

Definition clearInterval (h : nat) (s : State) : State :=
  set_intervals (filter (fun e => negb (Nat.eqb (fst e) h)) (intervals s)) s.

(** *** The component's functions, in source order *)

Definition telemetryLabels : list string :=
  [ "LOCAL_BUFFER_SCANNING";
    "PARSING_FILE_HEADER";
    "RECONSTRUCTING_SCHEMA";
    "OPTIMIZING_DELIMITERS";
    "STRIPPING_INTERACTIVE_LAYERS";
    "SERIALIZING_OUTPUT_BUFFER" ].

Definition startConversion (selectedFile : File) (s : State) : State :=
  let s := setLoading true s in
  let s := setError None s in
  let s := call_onErrorUpdate None s in
  let s := setDownloadReady false s in
  let s := setStatusMessage "UPLOADING_STREAM" s in
  let (hp, s) := setInterval (ProgressTick 0%float selectedFile (format s)) s in
  let s := set_progressTimer (Some hp) s in
  let (ht, s) := setInterval (TelemetryTick 0) s in
  set_telemetryTimer (Some ht) s.

Definition handleFileChange (files0 : option File) (s : State) : State :=
  match files0 with
  | Some selectedFile =>
      let s := setFile (Some selectedFile) s in
      let s := setDownloadReady false s in
      let s := setError None s in
      let s := call_onErrorUpdate None s in
      let s := setStatusMessage "" s in
      let s := setResultBlob None s in
      let s := setSimProgress 0%float s in
      startConversion selectedFile s
  | None => s
  end.

Definition cleanupTimers (s : State) : State :=
  let s := match progressTimer s with Some h => clearInterval h s | None => s end in
  match telemetryTimer s with Some h => clearInterval h s | None => s end.

Definition cleanup (s : State) : State :=
  setLoading false (cleanupTimers s).

Definition extension (fmt : Format) : string :=
  match fmt with excel => "xlsx" | word => "txt" end.

(** The value assigned to [a.download]. *)
Definition download_name (fmt : Format) (originalName : string) : string :=
  JS.replace originalName ".pdf" "" ++ "_v42." ++ extension fmt.

(** [fmt] is the [format] of the render whose [triggerDownload] is called. *)
Definition triggerDownload (fmt : Format) (blob : Blob) (originalName : string)
  (s : State) : State :=
  set_downloads (downloads s ++ [(download_name fmt originalName, blob)]) s.

Definition fallback_message : string :=
  "System status: Cloud engine offline. Local word extraction active.".

Definition words : list string :=
  filter (fun w => Nat.ltb 0 (String.length w)) (JS.split_spaces fallback_message).

Definition colWidths : list ColInfo :=
  map (fun word => {| wch := String.length word + 2 |}) words.

Definition xlsx_mime : string :=
  "application/vnd.openxmlformats-officedocument.spreadsheetml.sheet".

(** The [blob] that [finishConversion] builds (its [let blob ... if/else]). *)
Definition finishConversion_blob (fmt : Format) (timestamp : string)
  (selectedFile : File) : Blob :=
  match fmt with
  | excel =>
      let ws := aoa_to_sheet [words] in
      let ws := set_cols colWidths ws in
      let wb := book_new in
      let wb := book_append_sheet wb ws "Word Grid" in
      {| parts := [XLSX_write wb]; type := xlsx_mime |}
  | word =>
      let content :=
        "LOCAL_EXTRACTION_REPORT" ++ JS.nl ++ "Source: " ++ name selectedFile ++ JS.nl
        ++ "Status: Gemini AI Removed" ++ JS.nl ++ "Timestamp: " ++ timestamp in
      {| parts := [Text content]; type := "text/plain" |}
  end.

(** [fmt] is the [format] the calling closure captured; [timestamp] is
    [new Date().toLocaleString()] at the time of the call. *)
Definition finishConversion (fmt : Format) (timestamp : string)
  (selectedFile : File) (s : State) : State :=
  let s := cleanupTimers s in
  let s := setStatusMessage "ASSEMBLING_PAYLOAD" s in
  let blob := finishConversion_blob fmt timestamp selectedFile in
  let s := setResultBlob (Some blob) s in
  let s := setDownloadReady true s in
  let s := setLoading false s in
  let s := setStatusMessage "EXTRACTION_SUCCESS" s in
  triggerDownload fmt blob (name selectedFile) s.

Definition resetTask (s : State) : State :=
  let s := setFile None s in
  let s := setDownloadReady false s in
  let s := setResultBlob None s in
  let s := setStatusMessage "" s in
  let s := setSimProgress 0%float s in
  let s := setTelemetry "SYSTEM_IDLE" s in
  let s := setError None s in
  call_onErrorUpdate None s.

(** The increment of one progress tick. *)
Definition increment (prog : float) : float :=
  if ltb prog 40 then 4.5%float else if ltb prog 85 then 1.2%float else 0.5%float.

(** The callback of the progress interval [h], whose closure holds [prog]. *)
Definition progressCallback (h : nat) (prog : float) (selectedFile : File)
  (fmt : Format) (timestamp : string) (s : State) : State :=
  let prog := (prog + increment prog)%float in
  let s := set_intervals (store_interval h (ProgressTick prog selectedFile fmt) (intervals s)) s in
  let s := setSimProgress (JS.Math_min prog 100) s in
  if leb 100 prog then finishConversion fmt timestamp selectedFile s else s.

(** The callback of the telemetry interval [h], whose closure holds [telIdx]. *)
Definition telemetryCallback (h : nat) (telIdx : nat) (s : State) : State :=
  let s := setTelemetry
             (nth (telIdx mod List.length telemetryLabels) telemetryLabels "") s in
  set_intervals (store_interval h (TelemetryTick (S telIdx)) (intervals s)) s.

(** The browser fires interval [h]; a cleared interval has no callback left. *)
Definition fireInterval (h : nat) (timestamp : string) (s : State) : State :=
  match find_interval h (intervals s) with
  | Some (ProgressTick prog selectedFile fmt) =>
      progressCallback h prog selectedFile fmt timestamp s
  | Some (TelemetryTick telIdx) => telemetryCallback h telIdx s
  | None => s
  end.

(** *** What the rendered tree offers

    The three branches of "Main UI States": the file input exists in the first
    only, the RE-DOWNLOAD and NEW_TASK buttons in the third only; the format
    buttons are [disabled] while [loading]; the overlay with Force_Reboot and
    Dismiss is rendered when [error] is set. *)
Inductive View := IdleView | RunningView | SucceededView.

Definition view (s : State) : View :=
  if negb (loading s) && negb (downloadReady s) then IdleView
  else if loading s then RunningView
  else SucceededView.

Inductive Event :=
| FileChange (files0 : option File)
| ClickFormat (f : Format)
| ClickReDownload
| ClickNewTask
| ClickForceReboot
| ClickDismiss
| IntervalFires (h : nat) (timestamp : string).

(** An event reaches its handler when its control is rendered and enabled. *)
Definition dispatch (e : Event) (s : State) : State :=
  match e with
  | FileChange files0 =>
      match view s with IdleView => handleFileChange files0 s | _ => s end
  | ClickFormat f => if loading s then s else setFormat f s
  | ClickReDownload =>
      match view s with
      | SucceededView =>
          match resultBlob s, file s with
          | Some blob, Some f => triggerDownload (format s) blob (name f) s
          | _, _ => s
          end
      | _ => s
      end
  | ClickNewTask =>
      match view s with SucceededView => resetTask s | _ => s end
  | ClickForceReboot =>
      match error s with Some _ => resetTask s | None => s end
  | ClickDismiss =>
      match error s with Some _ => setError None s | None => s end
  | IntervalFires h timestamp => fireInterval h timestamp s
  end.

Definition run (events : list Event) (s : State) : State :=
  fold_left (fun acc e => dispatch e acc) events s.

(** The task fields, in the order of the [useState] declarations. *)
Definition task_fields (s : State) :=
  (file s, loading s, downloadReady s, error s, statusMessage s, telemetry s,
   simProgress s, resultBlob s).

Definition idle_defaults :=
  (@None File, false, false, @None ErrorInfo, "", "SYSTEM_IDLE", 0%float, @None Blob).

(** A ref's interval is still active. *)
Definition timer_active (ref : option nat) (s : State) : bool :=
  match ref with
  | Some h => match find_interval h (intervals s) with Some _ => true | None => false end
  | None => false
  end.

(** [prog] after [k] ticks of a run, and the progress shown then. *)
Fixpoint prog_after (k : nat) : float :=
  match k with
  | O => 0%float
  | S k' => let prog := prog_after k' in (prog + increment prog)%float
  end.

Definition shown_after (k : nat) : float := JS.Math_min (prog_after k) 100.

(** How many times the interval [hp] fires in a list of events. *)
Definition fires_of (hp : nat) (e : Event) : bool :=
  match e with
  | IntervalFires h _ => Nat.eqb h hp
  | _ => false
  end.

Definition progress_ticks (hp : nat) (events : list Event) : nat :=
  List.length (filter (fires_of hp) events).

(** The last tick of a run: the 75th. *)
Definition last_tick : nat := 75.

(** The suffix reading of the file-name rule: the name without a trailing
    [.pdf], then the version tag and the extension. *)
Definition strip_pdf_suffix (originalName : string) : string :=
  if JS.endsWith originalName ".pdf"
  then String.substring 0 (String.length originalName - 4) originalName
  else originalName.

Definition suffix_download_name (fmt : Format) (originalName : string) : string :=
  strip_pdf_suffix originalName ++ "_v42." ++ extension fmt.

End WebConverter.

(** ** Invariants of the two components *)

Module Invariant.

(** AIAssistant: when the error effect last ran for a non-empty value, that
    value is the acknowledged one. *)
Definition ack_follows_deps (st : AIAssistant.State) : Prop :=
  forall e, AIAssistant.lastDeps st = Some (Some e) -> e <> "" ->
            AIAssistant.errorAcknowledged st = Some e.

(** WebConverter: the three phases of a task. Idle: every task field has its
    default and no interval is active. *)
Definition idle (s : WebConverter.State) : Prop :=
  WebConverter.task_fields s = WebConverter.idle_defaults
  /\ WebConverter.intervals s = [].

(** Running, [k] ticks into the run: exactly the two intervals of the refs
    are active, the progress closure holds [prog_after k] together with the
    selected file and the current format, and the progress shown is
    [shown_after k]. *)
Definition running (hp ht k : nat) (s : WebConverter.State) : Prop :=
  WebConverter.loading s = true
  /\ WebConverter.downloadReady s = false
  /\ WebConverter.error s = None
  /\ WebConverter.resultBlob s = None
  /\ k < WebConverter.last_tick
  /\ WebConverter.simProgress s = WebConverter.shown_after k
  /\ hp <> ht
  /\ WebConverter.progressTimer s = Some hp
  /\ WebConverter.telemetryTimer s = Some ht
  /\ exists f j,
       WebConverter.file s = Some f
       /\ WebConverter.intervals s
          = [ (hp, WebConverter.ProgressTick (WebConverter.prog_after k) f (WebConverter.format s));
              (ht, WebConverter.TelemetryTick j) ].

(** Succeeded: a payload is held, progress shows 100 and no interval is
    active. *)
Definition succeeded (s : WebConverter.State) : Prop :=
  WebConverter.loading s = false
  /\ WebConverter.downloadReady s = true
  /\ WebConverter.error s = None
  /\ WebConverter.intervals s = []
  /\ WebConverter.simProgress s = 100%float
  /\ WebConverter.statusMessage s = "EXTRACTION_SUCCESS"
  /\ exists blob f, WebConverter.resultBlob s = Some blob /\ WebConverter.file s = Some f.

Definition phase (s : WebConverter.State) : Prop :=
  idle s \/ (exists hp ht k, running hp ht k s) \/ succeeded s.

End Invariant.

(** ** Notions used to state further properties *)

Module Derived.

(** The user messages of a transcript, and the assistant messages that are
    replies to them (neither the greeting's kind nor alerts are told apart by
    role, so replies are the assistant messages that are not alerts). *)
Definition is_user (m : AIAssistant.Message) : bool :=
  match AIAssistant.role m with AIAssistant.user => true | AIAssistant.ai => false end.

Definition is_plain_ai (m : AIAssistant.Message) : bool :=
  match AIAssistant.role m with
  | AIAssistant.user => false
  | AIAssistant.ai => negb (AIAssistant.is_alert m)
  end.

Definition user_count (st : AIAssistant.State) : nat :=
  List.length (filter is_user (AIAssistant.messages st)).

Definition plain_ai_count (st : AIAssistant.State) : nat :=
  List.length (filter is_plain_ai (AIAssistant.messages st)).

Definition pending (st : AIAssistant.State) : nat :=
  if AIAssistant.loading st then 1 else 0.

(** AIAssistant: a reply is pending exactly when one timeout is; its handle
    is one the browser has handed out. *)
Definition one_pending (st : AIAssistant.State) : Prop :=
  (AIAssistant.loading st = false /\ AIAssistant.timeouts st = [])
  \/ (AIAssistant.loading st = true
      /\ exists h m, AIAssistant.timeouts st = [(h, m)] /\ h < AIAssistant.nextHandle st).

End Derived.

(** ** The telemetry label of a run *)

Module Telemetry.

(** The label shown once the telemetry interval has fired [n] times in a
    run: the idle label before the first firing, then the labels in turn. *)
Definition label_after (n : nat) : string :=
  match n with
  | O => "SYSTEM_IDLE"
  | S m => nth (m mod 6) WebConverter.telemetryLabels ""
  end.

(** How many times the interval [ht] fires in a list of events. *)
Definition ticks (ht : nat) (events : list WebConverter.Event) : nat :=
  List.length (filter (WebConverter.fires_of ht) events).

End Telemetry.

(** ** Forgetting the bytes of the files *)

Module Erase.

Definition file (f : WebConverter.File) : WebConverter.File :=
  {| WebConverter.name := WebConverter.name f; WebConverter.bytes := [] |}.

Definition interval (cb : WebConverter.Interval) : WebConverter.Interval :=
  match cb with
  | WebConverter.ProgressTick prog f fmt => WebConverter.ProgressTick prog (file f) fmt
  | WebConverter.TelemetryTick telIdx => WebConverter.TelemetryTick telIdx
  end.

Definition entry (e : nat * WebConverter.Interval) : nat * WebConverter.Interval :=
  (fst e, interval (snd e)).

(** The state with the bytes of every file it holds forgotten: the [file]
    cell and the file captured by the progress closure. *)
Definition state (s : WebConverter.State) : WebConverter.State :=
  WebConverter.setFile (option_map file (WebConverter.file s))
    (WebConverter.set_intervals (map entry (WebConverter.intervals s)) s).

Definition event (e : WebConverter.Event) : WebConverter.Event :=
  match e with
  | WebConverter.FileChange files0 => WebConverter.FileChange (option_map file files0)
  | other => other
  end.

End Erase.

(** * Verification *)

(** ** Strings *)

Lemma startsWith_app (s p : string) :
  JS.startsWith s p = true <-> exists t, s = p ++ t.
Proof.
  revert s; induction p as [|a p IH]; intros s; simpl.
  - split; [intros _; now exists s | reflexivity].
  - destruct s as [|b s]; simpl.
    + split; [discriminate | intros [t Ht]; discriminate].
    + rewrite andb_true_iff, Ascii.eqb_eq, IH. split.
      * intros [-> [t ->]]. now exists t.
      * intros [t Ht]. injection Ht as -> ->. split; [reflexivity | now exists t].
Qed.

Lemma includes_app (s p : string) :
  JS.includes s p = true <-> exists pre post, s = pre ++ p ++ post.
Proof.
  induction s as [|c s IH]; simpl; rewrite orb_true_iff, startsWith_app.
  - split.
    + intros [[t Ht] | H]; [| discriminate]. now exists "", t.
    + intros [pre [post H]]. left. destruct pre; simpl in H; [now exists post | discriminate].
  - rewrite IH. split.
    + intros [[t Ht] | [pre [post H]]].
      * now exists "", t.
      * exists (String c pre), post. simpl. now rewrite H.
    + intros [pre [post H]]. destruct pre as [|d pre]; simpl in H.
      * left. now exists post.
      * right. injection H as -> ->. now exists pre, post.
Qed.

Lemma toLowerCase_app (a b : string) :
  JS.toLowerCase (a ++ b) = JS.toLowerCase a ++ JS.toLowerCase b.
Proof. induction a as [|c a IH]; simpl; [reflexivity | now rewrite IH]. Qed.

Lemma toLowerCase_split (q a b : string) :
  JS.toLowerCase q = a ++ b ->
  exists qa qb, q = qa ++ qb /\ JS.toLowerCase qa = a /\ JS.toLowerCase qb = b.
Proof.
  revert q; induction a as [|c a IH]; intros q H; simpl in H.
  - exists "", q. auto.
  - destruct q as [|d q]; simpl in H; [discriminate |].
    injection H as Hc Hq. destruct (IH q Hq) as [qa [qb [-> [Ha Hb]]]].
    exists (String d qa), qb. simpl. rewrite Ha, Hc. auto.
Qed.

Lemma includes_lower_mentions (q kw : string) :
  JS.includes (JS.toLowerCase q) kw = true <-> AIAssistant.mentions q kw.
Proof.
  rewrite includes_app. unfold AIAssistant.mentions. split.
  - intros [pre [post H]].
    destruct (toLowerCase_split _ _ _ H) as [qa [qr [-> [_ Hr]]]].
    destruct (toLowerCase_split _ _ _ Hr) as [qm [qp [-> [Hm _]]]].
    now exists qa, qm, qp.
  - intros [pre [mid [post [-> Hm]]]].
    exists (JS.toLowerCase pre), (JS.toLowerCase post).
    now rewrite !toLowerCase_app, Hm.
Qed.

Lemma includes_lower_not_mentions (q kw : string) :
  JS.includes (JS.toLowerCase q) kw = false <-> ~ AIAssistant.mentions q kw.
Proof.
  rewrite <- includes_lower_mentions. destruct (JS.includes _ _); split; easy.
Qed.

(** ** The reply classifier *)

(** C8. [getStaticResponse] depends on the text only, through
    case-insensitive containment of the keywords, the first group that
    matches winning: a mention of "error" or "fail" gives the remediation
    reply; failing that a mention of "excel" or "word" gives the
    format-capability reply; failing that "how" or "help" gives the usage
    reply; otherwise the generic acknowledgment. The four sample inputs are
    classified as listed. *)
Theorem getStaticResponse_first_match (q : string) :
  let m := AIAssistant.mentions q in
  (m "error" \/ m "fail" ->
     AIAssistant.getStaticResponse q = AIAssistant.remediation_reply)
  /\ (~ (m "error" \/ m "fail") -> m "excel" \/ m "word" ->
     AIAssistant.getStaticResponse q = AIAssistant.format_reply)
  /\ (~ (m "error" \/ m "fail") -> ~ (m "excel" \/ m "word") -> m "how" \/ m "help" ->
     AIAssistant.getStaticResponse q = AIAssistant.usage_reply)
  /\ (~ (m "error" \/ m "fail") -> ~ (m "excel" \/ m "word") -> ~ (m "how" \/ m "help") ->
     AIAssistant.getStaticResponse q = AIAssistant.generic_reply)
  /\ AIAssistant.getStaticResponse "Why did my file error?" = AIAssistant.remediation_reply
  /\ AIAssistant.getStaticResponse "compare excel and word" = AIAssistant.format_reply
  /\ AIAssistant.getStaticResponse "how do I start" = AIAssistant.usage_reply
  /\ AIAssistant.getStaticResponse "hello" = AIAssistant.generic_reply.
Proof.
  intros m. unfold AIAssistant.getStaticResponse.
  assert (G : forall a b, JS.includes (JS.toLowerCase q) a || JS.includes (JS.toLowerCase q) b = true
                          <-> m a \/ m b).
  { intros a b. now rewrite orb_true_iff, !includes_lower_mentions. }
  assert (N : forall a b, ~ (m a \/ m b) ->
                JS.includes (JS.toLowerCase q) a || JS.includes (JS.toLowerCase q) b = false).
  { intros a b H. apply not_true_is_false. now rewrite G. }
  split; [| split; [| split; [| split; [| repeat split]]]]; cbv zeta.
  - intros H. apply G in H. now rewrite H.
  - intros H1 H2. rewrite (N _ _ H1). apply G in H2. now rewrite H2.
  - intros H1 H2 H3. rewrite (N _ _ H1), (N _ _ H2). apply G in H3. now rewrite H3.
  - intros H1 H2 H3. now rewrite (N _ _ H1), (N _ _ H2), (N _ _ H3).
Qed.

Lemma getStaticResponse_first_match_witness :
  AIAssistant.mentions "My upload FAILED in Excel" "fail"
  /\ AIAssistant.getStaticResponse "My upload FAILED in Excel" = AIAssistant.remediation_reply.
Proof.
  assert (M : AIAssistant.mentions "My upload FAILED in Excel" "fail").
  { exists "My upload ", "FAIL", "ED in Excel". split; reflexivity. }
  split; [exact M |].
  exact (proj1 (getStaticResponse_first_match "My upload FAILED in Excel") (or_intror M)).
Defined.

(** ** The error effect of the assistant panel *)

Lemma strict_neq_false (a b : option string) :
  JS.strict_neq a b = false <-> a = b.
Proof.
  destruct a as [x|], b as [y|]; simpl; try (split; congruence).
  rewrite negb_false_iff, String.eqb_eq. split; congruence.
Qed.

Lemma initial_ack_follows_deps : Invariant.ack_follows_deps AIAssistant.initial.
Proof. intros e H. discriminate. Qed.

(** One delivery: the transcript grows by what [surfaced] says, the
    acknowledged value is the last one surfaced, and the invariant is kept. *)
Lemma deliver_step (v : option string) (st : AIAssistant.State) :
  Invariant.ack_follows_deps st ->
  exists add last',
    (forall l, AIAssistant.surfaced (AIAssistant.errorAcknowledged st) (v :: l)
               = (add ++ AIAssistant.surfaced last' l)%list)
    /\ AIAssistant.messages (AIAssistant.deliver v st)
       = (AIAssistant.messages st ++ map AIAssistant.alert add)%list
    /\ AIAssistant.errorAcknowledged (AIAssistant.deliver v st) = last'
    /\ Invariant.ack_follows_deps (AIAssistant.deliver v st).
Proof.
  intros I. unfold AIAssistant.deliver.
  destruct v as [e|].
  - destruct (String.eqb_spec e "") as [-> | Hne].
    + (* the empty string is falsy *)
      exists [], (AIAssistant.errorAcknowledged st). simpl.
      destruct (AIAssistant.deps_changed st (Some "")); simpl;
        rewrite app_nil_r; repeat split; auto; intros e' H Hne; try congruence.
      simpl in H. congruence.
    + destruct (JS.strict_neq (Some e) (AIAssistant.errorAcknowledged st)) eqn:N.
      * (* a value that differs from the acknowledged one *)
        assert (D : AIAssistant.deps_changed st (Some e) = true).
        { unfold AIAssistant.deps_changed.
          destruct (AIAssistant.lastDeps st) as [[x|]|] eqn:L; try reflexivity.
          destruct (String.eqb_spec x e) as [-> | ]; [| reflexivity].
          rewrite (I e L Hne) in N. simpl in N. now rewrite String.eqb_refl in N. }
        rewrite D. exists [e], (Some e).
        apply String.eqb_neq in Hne as Hb.
        unfold AIAssistant.errorEffect. cbn -[JS.strict_neq].
        rewrite Hb, N. cbn. repeat split; auto.
        intros e' H _. cbn in *. congruence.
      * (* the acknowledged value again *)
        exists [], (AIAssistant.errorAcknowledged st).
        apply String.eqb_neq in Hne as Hb.
        destruct (AIAssistant.deps_changed st (Some e)).
        -- unfold AIAssistant.errorEffect. cbn -[JS.strict_neq].
           rewrite Hb, N. cbn. rewrite app_nil_r. repeat split; auto.
           intros e' H _. apply strict_neq_false in N. cbn in *. congruence.
        -- cbn -[JS.strict_neq]. rewrite Hb, N, app_nil_r. repeat split; auto.
  - (* null *)
    exists [], (AIAssistant.errorAcknowledged st).
    destruct (AIAssistant.deps_changed st None); simpl;
      rewrite app_nil_r; repeat split; auto.
    intros e' H. discriminate.
Qed.

Lemma deliver_all_messages (l : list (option string)) (st : AIAssistant.State) :
  Invariant.ack_follows_deps st ->
  AIAssistant.messages (AIAssistant.deliver_all l st)
  = (AIAssistant.messages st
     ++ map AIAssistant.alert (AIAssistant.surfaced (AIAssistant.errorAcknowledged st) l))%list
  /\ Invariant.ack_follows_deps (AIAssistant.deliver_all l st).
Proof.
  revert st; induction l as [|v l IH]; intros st I.
  - simpl. now rewrite app_nil_r.
  - destruct (deliver_step v st I) as [add [last' [S1 [M [A I']]]]].
    destruct (IH _ I') as [M' I'']. split; [| exact I''].
    change (AIAssistant.deliver_all (v :: l) st)
      with (AIAssistant.deliver_all l (AIAssistant.deliver v st)).
    rewrite M', M, A.
    rewrite (S1 l), map_app, app_assoc. reflexivity.
Qed.

Lemma deliver_lastDeps (v : option string) (st : AIAssistant.State) :
  AIAssistant.lastDeps (AIAssistant.deliver v st) = Some v.
Proof.
  unfold AIAssistant.deliver, AIAssistant.deps_changed.
  destruct (AIAssistant.lastDeps st) as [[x|]|] eqn:L, v as [y|]; cbn;
    try (destruct (_ && _); reflexivity); try exact L; try reflexivity.
  destruct (String.eqb_spec x y) as [-> |]; cbn; [exact L |].
  destruct (_ && _); reflexivity.
Qed.

Lemma deliver_same_deps (v : option string) (st : AIAssistant.State) :
  AIAssistant.lastDeps st = Some v -> AIAssistant.deliver v st = st.
Proof.
  intros L. unfold AIAssistant.deliver, AIAssistant.deps_changed. rewrite L.
  destruct v as [x|]; [| reflexivity]. now rewrite String.eqb_refl.
Qed.

Lemma deliver_all_snoc (l : list (option string)) (v : option string) (st : AIAssistant.State) :
  AIAssistant.deliver_all (l ++ [v]) st = AIAssistant.deliver v (AIAssistant.deliver_all l st).
Proof. unfold AIAssistant.deliver_all. now rewrite fold_left_app. Qed.

(** C4, as the code has it. The transcript after any sequence of deliveries
    is the initial transcript followed by one alert for each delivered value
    that is non-null, non-empty and differs from the last value surfaced
    before it. So the same value delivered twice, also with a null in
    between, gives one alert; two distinct values give two alerts; delivering
    again the value just delivered changes nothing; and a value that another
    one has superseded is alerted again. *)
Theorem alert_when_signal_differs_from_last_surfaced
  (l : list (option string)) (e e' : string) :
  e <> "" -> e' <> "" -> e <> e' ->
  let transcript sig := AIAssistant.messages (AIAssistant.deliver_all sig AIAssistant.initial) in
  let greeting := AIAssistant.messages AIAssistant.initial in
  transcript l = (greeting ++ map AIAssistant.alert (AIAssistant.surfaced None l))%list
  /\ transcript [Some e; Some e] = (greeting ++ [AIAssistant.alert e])%list
  /\ transcript [Some e; None; Some e] = (greeting ++ [AIAssistant.alert e])%list
  /\ transcript [Some e; Some e'] = (greeting ++ [AIAssistant.alert e; AIAssistant.alert e'])%list
  /\ AIAssistant.deliver (Some e) (AIAssistant.deliver_all (l ++ [Some e]) AIAssistant.initial)
     = AIAssistant.deliver_all (l ++ [Some e]) AIAssistant.initial
  /\ transcript [Some e; Some e'; Some e]
     = (greeting ++ [AIAssistant.alert e; AIAssistant.alert e'; AIAssistant.alert e])%list.
Proof.
  intros He He' Hd transcript greeting.
  assert (G : forall sig, transcript sig
                = (greeting ++ map AIAssistant.alert (AIAssistant.surfaced None sig))%list).
  { intros sig. exact (proj1 (deliver_all_messages sig _ initial_ack_follows_deps)). }
  apply String.eqb_neq in He as Be. apply String.eqb_neq in He' as Be'.
  apply String.eqb_neq in Hd as Bd.
  assert (Bd' : (e' =? e) = false) by (rewrite String.eqb_sym; exact Bd).
  repeat split.
  - apply G.
  - rewrite G. cbn. now rewrite Be, String.eqb_refl.
  - rewrite G. cbn. now rewrite Be, String.eqb_refl.
  - rewrite G. cbn. now rewrite Be, Be', Bd'.
  - rewrite deliver_all_snoc. apply deliver_same_deps, deliver_lastDeps.
  - rewrite G. cbn. now rewrite Be, Be', Bd', Bd.
Qed.

Lemma alert_when_signal_differs_from_last_surfaced_witness :
  AIAssistant.messages
    (AIAssistant.deliver_all [Some "E1"; None; Some "E1"; Some "E2"] AIAssistant.initial)
  = (AIAssistant.messages AIAssistant.initial
     ++ [AIAssistant.alert "E1"; AIAssistant.alert "E2"])%list.
Proof.
  refine (proj1 (alert_when_signal_differs_from_last_surfaced
                   [Some "E1"; None; Some "E1"; Some "E2"] "E1" "E2" _ _ _));
    discriminate.
Defined.

(** C4 as stated fails: three deliveries carrying two distinct values put
    three alerts in the transcript. *)
Lemma alert_per_distinct_value_fails :
  ~ (AIAssistant.alert_count
       (AIAssistant.deliver_all [Some "E1"; Some "E2"; Some "E1"] AIAssistant.initial)
     <= AIAssistant.distinct_non_null [Some "E1"; Some "E2"; Some "E1"]).
Proof. vm_compute. lia. Qed.

(** ** The result payload and the download name *)

(** C5, at a name the rule misses. For "report.pdf" the download name is
    "report_v42.xlsx" under excel and "report_v42.txt" under word; but
    [replace] removes the first occurrence of ".pdf", not the suffix: for
    "x.pdfs.pdf" the component saves "xs.pdf_v42.xlsx", where stripping the
    suffix gives "x.pdfs_v42.xlsx". *)
Theorem download_name_removes_first_pdf :
  WebConverter.download_name WebConverter.excel "report.pdf" = "report_v42.xlsx"
  /\ WebConverter.download_name WebConverter.word "report.pdf" = "report_v42.txt"
  /\ WebConverter.download_name WebConverter.excel "x.pdfs.pdf" = "xs.pdf_v42.xlsx"
  /\ WebConverter.suffix_download_name WebConverter.excel "x.pdfs.pdf" = "x.pdfs_v42.xlsx"
  /\ WebConverter.download_name WebConverter.excel "x.pdfs.pdf"
     <> WebConverter.suffix_download_name WebConverter.excel "x.pdfs.pdf".
Proof. repeat split; discriminate. Qed.

(** C7. What [finishConversion] produces depends on the format, the file's
    name and the timestamp only: for two files of the same name the blob is
    the same, and so is the whole state [finishConversion] leaves, downloads
    included. *)
Theorem payload_ignores_file_bytes
  (fmt : WebConverter.Format) (timestamp : string) (f1 f2 : WebConverter.File)
  (s : WebConverter.State) :
  WebConverter.name f1 = WebConverter.name f2 ->
  WebConverter.finishConversion_blob fmt timestamp f1
  = WebConverter.finishConversion_blob fmt timestamp f2
  /\ WebConverter.finishConversion fmt timestamp f1 s
     = WebConverter.finishConversion fmt timestamp f2 s.
Proof.
  intros H. unfold WebConverter.finishConversion, WebConverter.finishConversion_blob.
  rewrite H. destruct fmt; split; reflexivity.
Qed.

Lemma payload_ignores_file_bytes_witness :
  let f1 := {| WebConverter.name := "report.pdf"; WebConverter.bytes := [Byte.x25; Byte.x50] |} in
  let f2 := {| WebConverter.name := "report.pdf"; WebConverter.bytes := [Byte.x00] |} in
  f1 <> f2
  /\ WebConverter.finishConversion_blob WebConverter.word "11/2/2026, 9:00:00 AM" f1
     = WebConverter.finishConversion_blob WebConverter.word "11/2/2026, 9:00:00 AM" f2.
Proof.
  split; [discriminate |].
  exact (proj1 (payload_ignores_file_bytes WebConverter.word "11/2/2026, 9:00:00 AM"
                  {| WebConverter.name := "report.pdf"; WebConverter.bytes := [Byte.x25; Byte.x50] |}
                  {| WebConverter.name := "report.pdf"; WebConverter.bytes := [Byte.x00] |}
                  (WebConverter.initial WebConverter.word true) eq_refl)).
Defined.

(** C9. Under excel the blob is the serialisation of a workbook with one
    sheet, "Word Grid", made from one row: the nine words of the fallback
    sentence, split at white space; its column widths are the lengths of
    those words plus 2, column by column. *)
Theorem excel_payload_one_row_of_words (timestamp : string) (f : WebConverter.File) :
  exists ws widths,
    WebConverter.finishConversion_blob WebConverter.excel timestamp f
    = {| WebConverter.parts :=
           [WebConverter.XLSX_write {| WebConverter.Sheets := [("Word Grid", ws)] |}];
         WebConverter.type := WebConverter.xlsx_mime |}
    /\ WebConverter.aoa ws = [WebConverter.words]
    /\ WebConverter.words
       = ["System"; "status:"; "Cloud"; "engine"; "offline."; "Local"; "word";
          "extraction"; "active."]
    /\ String.concat " " WebConverter.words = WebConverter.fallback_message
    /\ Forall (fun w => forallb (fun c => negb (JS.is_space c)) (list_ascii_of_string w) = true)
              WebConverter.words
    /\ WebConverter.cols ws = Some widths
    /\ List.length widths = List.length WebConverter.words
    /\ (forall i, i < List.length WebConverter.words ->
          WebConverter.wch (nth i widths {| WebConverter.wch := 0 |})
          = String.length (nth i WebConverter.words "") + 2).
Proof.
  exists (WebConverter.set_cols WebConverter.colWidths (WebConverter.aoa_to_sheet [WebConverter.words])),
         WebConverter.colWidths.
  split; [reflexivity |]. split; [reflexivity |].
  split; [vm_compute; reflexivity |]. split; [vm_compute; reflexivity |].
  split.
  { apply Forall_forall.
    apply (proj1 (forallb_forall
                    (fun w => forallb (fun c => negb (JS.is_space c)) (list_ascii_of_string w))
                    WebConverter.words)).
    vm_compute. reflexivity. }
  split; [reflexivity |].
  unfold WebConverter.colWidths. split.
  - apply length_map.
  - intros i Hi.
    rewrite (nth_indep _ _ {| WebConverter.wch := String.length "" + 2 |})
      by now rewrite length_map.
    now rewrite (map_nth (fun word => {| WebConverter.wch := String.length word + 2 |})).
Qed.

(** ** The progress counter *)

Lemma forallb_below (p : nat -> bool) (n : nat) :
  forallb p (seq 0 n) = true -> forall k, k < n -> p k = true.
Proof.
  intros H k Hk. rewrite forallb_forall in H. apply H, in_seq. lia.
Qed.

Lemma prog_below_100 (k : nat) :
  k < WebConverter.last_tick -> leb 100 (WebConverter.prog_after k) = false.
Proof.
  intros Hk. apply negb_true_iff.
  apply (forallb_below (fun k => negb (leb 100 (WebConverter.prog_after k)))
           WebConverter.last_tick); [| exact Hk].
  vm_compute. reflexivity.
Qed.

Lemma prog_reaches_100 : leb 100 (WebConverter.prog_after WebConverter.last_tick) = true.
Proof. vm_compute. reflexivity. Qed.

Lemma shown_last : WebConverter.shown_after WebConverter.last_tick = 100%float.
Proof. vm_compute. reflexivity. Qed.

Lemma shown_first : WebConverter.shown_after 0 = 0%float.
Proof. vm_compute. reflexivity. Qed.

Lemma shown_increases (k : nat) :
  k < WebConverter.last_tick ->
  ltb (WebConverter.shown_after k) (WebConverter.shown_after (S k)) = true
  /\ leb 0 (WebConverter.shown_after k) = true
  /\ ltb (WebConverter.shown_after k) 100 = true.
Proof.
  intros Hk.
  assert (T : ltb (WebConverter.shown_after k) (WebConverter.shown_after (S k))
              && (leb 0 (WebConverter.shown_after k)
                  && ltb (WebConverter.shown_after k) 100) = true).
  { apply (forallb_below
             (fun k => ltb (WebConverter.shown_after k) (WebConverter.shown_after (S k))
                       && (leb 0 (WebConverter.shown_after k)
                           && ltb (WebConverter.shown_after k) 100))
             WebConverter.last_tick); [| exact Hk].
    vm_compute. reflexivity. }
  apply andb_true_iff in T as [T1 T]. apply andb_true_iff in T as [T2 T3]. auto.
Qed.

(** ** The phases of a task *)

#[local] Arguments WebConverter.prog_after : simpl never.
#[local] Arguments WebConverter.shown_after : simpl never.

Lemma idle_initial (fmt : WebConverter.Format) (cb : bool) :
  Invariant.idle (WebConverter.initial fmt cb).
Proof. split; reflexivity. Qed.

(** A state without intervals ignores every firing. *)
Lemma fireInterval_none (h : nat) (ts : string) (s : WebConverter.State) :
  WebConverter.intervals s = [] -> WebConverter.fireInterval h ts s = s.
Proof. intros H. unfold WebConverter.fireInterval. now rewrite H. Qed.

(** Selecting a file in the idle phase starts a run with two fresh intervals. *)
Lemma idle_handleFileChange (f : WebConverter.File) (s : WebConverter.State) :
  Invariant.idle s ->
  Invariant.running (WebConverter.nextHandle s) (S (WebConverter.nextHandle s)) 0
    (WebConverter.handleFileChange (Some f) s).
Proof.
  intros [T I]. destruct s as [fmt cb eu fl ld dr er sm tl sp rb pt tt iv nh dl].
  cbn in T, I. injection T as -> -> -> -> -> -> -> ->. subst iv.
  unfold Invariant.running. destruct cb; cbn; rewrite shown_first;
    (repeat split; try reflexivity; [unfold WebConverter.last_tick; lia | lia |]);
    exists f, 0; split; reflexivity.
Qed.

#[local] Arguments WebConverter.increment : simpl never.
#[local] Arguments JS.Math_min : simpl never.

Ltac open_running R :=
  destruct R as (L & D & E & B & K & P & N & PT & TT & f & j & F & IV).

Lemma prog_after_S (k : nat) :
  WebConverter.prog_after (S k)
  = (WebConverter.prog_after k + WebConverter.increment (WebConverter.prog_after k))%float.
Proof. reflexivity. Qed.

(** A progress tick before the last one keeps the run going. *)
Lemma running_progress_tick (hp ht k : nat) (ts : string) (s : WebConverter.State) :
  Invariant.running hp ht k s -> S k < WebConverter.last_tick ->
  Invariant.running hp ht (S k) (WebConverter.fireInterval hp ts s).
Proof.
  intros R HK. open_running R.
  destruct s as [fmt cb eu fl ld dr er sm tl sp rb pt tt iv nh dl].
  cbn in *. subst.
  unfold WebConverter.fireInterval, WebConverter.progressCallback. cbn.
  rewrite !Nat.eqb_refl. cbn. rewrite <- prog_after_S, (prog_below_100 _ HK).
  unfold Invariant.running. cbn. repeat split; auto.
  exists f, j. split; reflexivity.
Qed.

(** The last progress tick ends the run: the payload is built under the
    format of the run from the selected file, stored and downloaded once, and
    both intervals are cleared. *)
Lemma running_last_tick (hp ht k : nat) (ts : string) (s : WebConverter.State) :
  Invariant.running hp ht k s -> S k = WebConverter.last_tick ->
  let s' := WebConverter.fireInterval hp ts s in
  Invariant.succeeded s'
  /\ (exists f, WebConverter.file s = Some f
       /\ WebConverter.resultBlob s'
          = Some (WebConverter.finishConversion_blob (WebConverter.format s) ts f)
       /\ WebConverter.downloads s'
          = (WebConverter.downloads s
             ++ [(WebConverter.download_name (WebConverter.format s) (WebConverter.name f),
                  WebConverter.finishConversion_blob (WebConverter.format s) ts f)])%list)
  /\ WebConverter.format s' = WebConverter.format s
  /\ WebConverter.errorUpdates s' = WebConverter.errorUpdates s.
Proof.
  intros R HK. open_running R.
  destruct s as [fmt cb eu fl ld dr er sm tl sp rb pt tt iv nh dl].
  cbn in *. subst.
  unfold WebConverter.fireInterval, WebConverter.progressCallback. cbn.
  rewrite !Nat.eqb_refl. cbn. rewrite <- prog_after_S, HK, prog_reaches_100.
  unfold WebConverter.finishConversion, WebConverter.cleanupTimers,
    WebConverter.clearInterval. cbn.
  rewrite !Nat.eqb_refl. cbn.
  assert (Hne : Nat.eqb ht hp = false) by (apply Nat.eqb_neq; congruence).
  rewrite Hne. cbn. rewrite Nat.eqb_refl. cbn.
  split; [| split; [| split; reflexivity]].
  - unfold Invariant.succeeded. cbn.
    split; [reflexivity |]. split; [reflexivity |]. split; [reflexivity |].
    split; [reflexivity |]. split; [apply shown_last |]. split; [reflexivity |]. eauto.
  - exists f. repeat split.
Qed.

(** A telemetry tick shows the next label and leaves the run as it is. *)
Lemma running_telemetry_tick (hp ht k : nat) (ts : string) (s : WebConverter.State) :
  Invariant.running hp ht k s ->
  Invariant.running hp ht k (WebConverter.fireInterval ht ts s)
  /\ WebConverter.format (WebConverter.fireInterval ht ts s) = WebConverter.format s
  /\ WebConverter.file (WebConverter.fireInterval ht ts s) = WebConverter.file s.
Proof.
  intros R. open_running R.
  destruct s as [fmt cb eu fl ld dr er sm tl sp rb pt tt iv nh dl].
  cbn in *. subst.
  assert (Hne : Nat.eqb hp ht = false) by (apply Nat.eqb_neq; congruence).
  unfold WebConverter.fireInterval, WebConverter.telemetryCallback. cbn.
  rewrite ?Hne, ?Nat.eqb_refl. cbn. rewrite ?Hne, ?Nat.eqb_refl.
  split; [| split; reflexivity].
  unfold Invariant.running. cbn. repeat split; auto.
  exists f, (S j). split; reflexivity.
Qed.

(** A handle that belongs to neither interval fires nothing. *)
Lemma running_other_handle (hp ht k h : nat) (ts : string) (s : WebConverter.State) :
  Invariant.running hp ht k s -> h <> hp -> h <> ht ->
  WebConverter.fireInterval h ts s = s.
Proof.
  intros R H1 H2. open_running R.
  unfold WebConverter.fireInterval. rewrite IV. cbn.
  apply Nat.eqb_neq in H1, H2. rewrite Nat.eqb_sym in H1. rewrite Nat.eqb_sym in H2.
  now rewrite H1, H2.
Qed.

(** While a run is going on no control of the panel reaches its handler. *)
Lemma running_controls_off (hp ht k : nat) (e : WebConverter.Event) (s : WebConverter.State) :
  Invariant.running hp ht k s ->
  (forall h ts, e <> WebConverter.IntervalFires h ts) ->
  WebConverter.dispatch e s = s.
Proof.
  intros R He. open_running R.
  destruct e; cbn; unfold WebConverter.view; rewrite ?L, ?D, ?E; cbn; try reflexivity.
  now contradiction (He h timestamp).
Qed.

Lemma idle_view (s : WebConverter.State) :
  Invariant.idle s ->
  WebConverter.view s = WebConverter.IdleView
  /\ WebConverter.loading s = false /\ WebConverter.error s = None.
Proof.
  intros [T _]. unfold WebConverter.task_fields, WebConverter.idle_defaults in T.
  injection T as _ L D E _ _ _ _. unfold WebConverter.view. now rewrite L, D.
Qed.

Lemma running_view (hp ht k : nat) (s : WebConverter.State) :
  Invariant.running hp ht k s -> WebConverter.view s = WebConverter.RunningView.
Proof. intros R. open_running R. unfold WebConverter.view. now rewrite L, D. Qed.

Lemma succeeded_view (s : WebConverter.State) :
  Invariant.succeeded s -> WebConverter.view s = WebConverter.SucceededView.
Proof. intros (L & D & _). unfold WebConverter.view. now rewrite L, D. Qed.

Lemma idle_dispatch (e : WebConverter.Event) (s : WebConverter.State) :
  Invariant.idle s -> Invariant.phase (WebConverter.dispatch e s).
Proof.
  intros I. destruct (idle_view s I) as (V & L & E).
  destruct e as [[f|] | fmt' | | | | | h ts]; unfold WebConverter.dispatch;
    rewrite ?V, ?L, ?E; try (left; exact I).
  - right; left. exists (WebConverter.nextHandle s), (S (WebConverter.nextHandle s)), 0.
    apply idle_handleFileChange, I.
  - left. rewrite fireInterval_none; [exact I | apply I].
Qed.

Lemma running_dispatch (hp ht k : nat) (e : WebConverter.Event) (s : WebConverter.State) :
  Invariant.running hp ht k s -> Invariant.phase (WebConverter.dispatch e s).
Proof.
  intros R.
  assert (Same : WebConverter.dispatch e s = s -> Invariant.phase (WebConverter.dispatch e s)).
  { intros ->. right; left. now exists hp, ht, k. }
  destruct e as [fs | fmt' | | | | | h ts];
    try (apply Same, (running_controls_off hp ht k); [exact R | discriminate]).
  cbn. destruct (Nat.eq_dec h hp) as [-> | Hp].
  - assert (K : k < WebConverter.last_tick) by (open_running R; exact K).
    destruct (Nat.eq_dec (S k) WebConverter.last_tick) as [HK | HK].
    + right; right. exact (proj1 (running_last_tick hp ht k ts s R HK)).
    + right; left. exists hp, ht, (S k). apply running_progress_tick; [exact R | lia].
  - destruct (Nat.eq_dec h ht) as [-> | Ht].
    + right; left. exists hp, ht, k. now apply running_telemetry_tick.
    + apply Same. cbn. now apply (running_other_handle hp ht k).
Qed.

Lemma succeeded_dispatch (e : WebConverter.Event) (s : WebConverter.State) :
  Invariant.succeeded s -> Invariant.phase (WebConverter.dispatch e s).
Proof.
  intros S. pose proof (succeeded_view s S) as V.
  destruct S as (L & D & E & I & P & M & blob & f & B & F).
  assert (S : Invariant.succeeded s).
  { unfold Invariant.succeeded. repeat split; eauto. }
  destruct e as [fs | fmt' | | | | | h ts]; cbn; rewrite ?V, ?L, ?E, ?B, ?F;
    try (right; right; exact S).
  - left. unfold Invariant.idle, WebConverter.resetTask, WebConverter.call_onErrorUpdate.
    destruct s as [fmt cb eu fl ld dr er sm tl sp rb pt tt iv nh dl]. cbn in *. subst.
    destruct cb; split; reflexivity.
  - right; right. now rewrite fireInterval_none.
Qed.

Lemma phase_dispatch (e : WebConverter.Event) (s : WebConverter.State) :
  Invariant.phase s -> Invariant.phase (WebConverter.dispatch e s).
Proof.
  intros [I | [(hp & ht & k & R) | S]].
  - now apply idle_dispatch.
  - now apply (running_dispatch hp ht k).
  - now apply succeeded_dispatch.
Qed.

Lemma run_app (a b : list WebConverter.Event) (s : WebConverter.State) :
  WebConverter.run (a ++ b) s = WebConverter.run b (WebConverter.run a s).
Proof. unfold WebConverter.run. apply fold_left_app. Qed.

Lemma phase_run (events : list WebConverter.Event) (s : WebConverter.State) :
  Invariant.phase s -> Invariant.phase (WebConverter.run events s).
Proof.
  revert s; induction events as [|e l IH]; intros s P; [exact P |].
  apply IH, phase_dispatch, P.
Qed.

Lemma phase_reachable (fmt : WebConverter.Format) (cb : bool) (events : list WebConverter.Event) :
  Invariant.phase (WebConverter.run events (WebConverter.initial fmt cb)).
Proof. apply phase_run. left. apply idle_initial. Qed.

(** What each phase says about the loading flag, the error and the intervals. *)
Lemma phase_not_loading (s : WebConverter.State) :
  Invariant.phase s -> WebConverter.loading s = false ->
  WebConverter.intervals s = [] /\ WebConverter.error s = None.
Proof.
  intros [I | [(hp & ht & k & R) | S]] L'.
  - split; [apply I | apply (idle_view s I)].
  - open_running R. congruence.
  - destruct S as (_ & _ & E & I & _). auto.
Qed.

Lemma phase_error_none (s : WebConverter.State) :
  Invariant.phase s -> WebConverter.error s = None.
Proof.
  intros [I | [(hp & ht & k & R) | S]].
  - apply (idle_view s I).
  - now open_running R.
  - now destruct S as (_ & _ & E & _).
Qed.

(** A progress tick changes neither the format nor the file. *)
Lemma progress_tick_keeps_props (hp ht k : nat) (ts : string) (s : WebConverter.State) :
  Invariant.running hp ht k s -> S k < WebConverter.last_tick ->
  WebConverter.format (WebConverter.fireInterval hp ts s) = WebConverter.format s
  /\ WebConverter.file (WebConverter.fireInterval hp ts s) = WebConverter.file s.
Proof.
  intros R HK. open_running R.
  destruct s as [fmt cb eu fl ld dr er sm tl sp rb pt tt iv nh dl].
  cbn in *. subst.
  unfold WebConverter.fireInterval, WebConverter.progressCallback. cbn.
  rewrite !Nat.eqb_refl. cbn. rewrite <- prog_after_S, (prog_below_100 _ HK).
  split; reflexivity.
Qed.

Lemma progress_ticks_cons (hp : nat) (e : WebConverter.Event) (l : list WebConverter.Event) :
  WebConverter.progress_ticks hp (e :: l)
  = (if WebConverter.fires_of hp e then 1 else 0) + WebConverter.progress_ticks hp l.
Proof.
  unfold WebConverter.progress_ticks. cbn. now destruct (WebConverter.fires_of hp e).
Qed.

(** During a run only the ticks of the progress interval count: after any
    events that hold fewer than 75 of them in all, the run is still going on,
    as many ticks further. *)
Lemma running_run (hp ht : nat) (events : list WebConverter.Event) :
  forall (k : nat) (s : WebConverter.State),
    Invariant.running hp ht k s ->
    k + WebConverter.progress_ticks hp events < WebConverter.last_tick ->
    Invariant.running hp ht (k + WebConverter.progress_ticks hp events)
      (WebConverter.run events s)
    /\ WebConverter.format (WebConverter.run events s) = WebConverter.format s
    /\ WebConverter.file (WebConverter.run events s) = WebConverter.file s.
Proof.
  induction events as [|e l IH]; intros k s R B.
  - cbn. rewrite Nat.add_0_r. auto.
  - rewrite progress_ticks_cons in *.
    change (WebConverter.run (e :: l) s) with (WebConverter.run l (WebConverter.dispatch e s)).
    destruct (WebConverter.fires_of hp e) eqn:Fe.
    + destruct e as [| | | | | | h ts]; try discriminate.
      cbn in Fe. apply Nat.eqb_eq in Fe. subst h.
      destruct (progress_tick_keeps_props hp ht k ts s R ltac:(lia)) as [Hf Hfile].
      destruct (IH (S k) _ (running_progress_tick hp ht k ts s R ltac:(lia)) ltac:(lia))
        as (R' & F' & G').
      replace (k + (1 + WebConverter.progress_ticks hp l))
        with (S k + WebConverter.progress_ticks hp l) by lia.
      cbn [WebConverter.dispatch]. rewrite F', G'. auto.
    + assert (Keep : Invariant.running hp ht k (WebConverter.dispatch e s)
                     /\ WebConverter.format (WebConverter.dispatch e s) = WebConverter.format s
                     /\ WebConverter.file (WebConverter.dispatch e s) = WebConverter.file s).
      { destruct e as [fs | fmt' | | | | | h ts];
          try (rewrite (running_controls_off hp ht k _ s R); [auto | discriminate]).
        cbn in Fe. apply Nat.eqb_neq in Fe. cbn [WebConverter.dispatch].
        destruct (Nat.eq_dec h ht) as [-> | Ht].
        - now apply running_telemetry_tick.
        - rewrite (running_other_handle hp ht k h ts s R Fe Ht). auto. }
      destruct Keep as (R1 & F1 & G1).
      destruct (IH k _ R1 ltac:(lia)) as (R' & F' & G').
      cbn [Nat.add]. rewrite F', G', F1, G1. auto.
Qed.

Lemma idle_of_view (s : WebConverter.State) :
  Invariant.phase s -> WebConverter.view s = WebConverter.IdleView -> Invariant.idle s.
Proof.
  intros [I | [(hp & ht & k & R) | S]] V; [exact I | |].
  - rewrite (running_view _ _ _ _ R) in V. discriminate.
  - rewrite (succeeded_view _ S) in V. discriminate.
Qed.

Lemma succeeded_of_view (s : WebConverter.State) :
  Invariant.phase s -> WebConverter.view s = WebConverter.SucceededView ->
  Invariant.succeeded s.
Proof.
  intros [I | [(hp & ht & k & R) | S]] V; [| | exact S].
  - rewrite (proj1 (idle_view _ I)) in V. discriminate.
  - rewrite (running_view _ _ _ _ R) in V. discriminate.
Qed.

(** ** Progress of a run *)

(** C6. A tick adds 4.5 to the counter while it is below 40, 1.2 while it is
    at least 40 and below 85, and 0.5 from 85 on, and the progress shown is
    the counter clamped to 100. For a file selected in the idle view of any
    state the panel can reach, and any events after it among which the
    progress interval fires [k] times, [k < 75]: the task is still running,
    the counter is [prog_after k] and [shown_after k] is shown, a value in
    [0, 100) that the next tick raises; no payload exists. The next tick of
    the progress interval keeps the task running when it is not the 75th, and
    when it is the 75th shows exactly 100 and makes the task succeed with the
    payload of the selected file. *)
Theorem progress_monotone_until_success
  (fmt0 : WebConverter.Format) (cb : bool) (before : list WebConverter.Event)
  (f : WebConverter.File) (events : list WebConverter.Event) (ts : string) :
  let s0 := WebConverter.run before (WebConverter.initial fmt0 cb) in
  let hp := WebConverter.nextHandle s0 in
  let k := WebConverter.progress_ticks hp events in
  let s := WebConverter.run events (WebConverter.dispatch (WebConverter.FileChange (Some f)) s0) in
  let s' := WebConverter.dispatch (WebConverter.IntervalFires hp ts) s in
  WebConverter.view s0 = WebConverter.IdleView ->
  k < WebConverter.last_tick ->
  (forall prog,
      (ltb prog 40 = true -> WebConverter.increment prog = 4.5%float)
      /\ (ltb prog 40 = false -> ltb prog 85 = true -> WebConverter.increment prog = 1.2%float)
      /\ (ltb prog 40 = false -> ltb prog 85 = false -> WebConverter.increment prog = 0.5%float))
  /\ WebConverter.view s = WebConverter.RunningView
  /\ WebConverter.find_interval hp (WebConverter.intervals s)
     = Some (WebConverter.ProgressTick (WebConverter.prog_after k) f (WebConverter.format s0))
  /\ WebConverter.prog_after (S k)
     = (WebConverter.prog_after k + WebConverter.increment (WebConverter.prog_after k))%float
  /\ WebConverter.simProgress s = JS.Math_min (WebConverter.prog_after k) 100
  /\ WebConverter.resultBlob s = None
  /\ leb 0 (WebConverter.simProgress s) = true
  /\ ltb (WebConverter.simProgress s) 100 = true
  /\ ltb (WebConverter.simProgress s) (JS.Math_min (WebConverter.prog_after (S k)) 100) = true
  /\ WebConverter.simProgress s' = JS.Math_min (WebConverter.prog_after (S k)) 100
  /\ (S k < WebConverter.last_tick -> WebConverter.view s' = WebConverter.RunningView)
  /\ (S k = WebConverter.last_tick ->
        WebConverter.view s' = WebConverter.SucceededView
        /\ WebConverter.simProgress s' = 100%float
        /\ WebConverter.resultBlob s'
           = Some (WebConverter.finishConversion_blob (WebConverter.format s0) ts f)).
Proof.
  intros s0 hp k s s' V0 Hk.
  assert (I0 : Invariant.idle s0) by (apply idle_of_view; [apply phase_reachable | exact V0]).
  pose proof (idle_handleFileChange f s0 I0) as R0.
  assert (E1 : WebConverter.dispatch (WebConverter.FileChange (Some f)) s0
               = WebConverter.handleFileChange (Some f) s0).
  { cbn [WebConverter.dispatch]. now rewrite V0. }
  assert (F1 : WebConverter.format (WebConverter.handleFileChange (Some f) s0)
               = WebConverter.format s0
               /\ WebConverter.file (WebConverter.handleFileChange (Some f) s0) = Some f).
  { destruct s0 as [fmt cb' eu fl ld dr er sm tl sp rb pt tt iv nh dl].
    unfold WebConverter.handleFileChange, WebConverter.startConversion,
      WebConverter.call_onErrorUpdate. cbn. destruct cb'; split; reflexivity. }
  destruct F1 as [F1 G1].
  destruct (running_run hp (S hp) events 0 _ R0 Hk) as (R & Hfmt & Hfile).
  fold k in R. cbn [Nat.add] in R. rewrite <- E1 in R, Hfmt, Hfile.
  fold s in R, Hfmt, Hfile.
  rewrite E1, F1 in Hfmt. rewrite E1, G1 in Hfile.
  pose proof (running_view _ _ _ _ R) as V.
  destruct (shown_increases k Hk) as (M1 & M2 & M3).
  pose proof R as (_ & _ & _ & HB & _ & HP & _ & _ & _ & f1 & j1 & Hf1 & HIV).
  rewrite Hfile in Hf1. injection Hf1 as <-. rewrite Hfmt in HIV.
  assert (HP' : WebConverter.simProgress s' = WebConverter.shown_after (S k)).
  { destruct (Nat.eq_dec (S k) WebConverter.last_tick) as [HK | HK].
    - destruct (running_last_tick hp (S hp) k ts s R HK) as ((_ & _ & _ & _ & Q & _) & _).
      unfold s'. cbn [WebConverter.dispatch]. rewrite Q, HK. symmetry. apply shown_last.
    - pose proof (running_progress_tick hp (S hp) k ts s R ltac:(lia)) as R'.
      now destruct R' as (_ & _ & _ & _ & _ & Q & _). }
  split; [| split; [exact V | split; [| split; [reflexivity | split; [exact HP |]]]]].
  - intros prog. unfold WebConverter.increment.
    repeat split; intros; repeat match goal with H : _ = _ |- _ => rewrite H end; reflexivity.
  - rewrite HIV. cbn. now rewrite Nat.eqb_refl.
  - split; [exact HB |]. rewrite HP. split; [exact M2 |]. split; [exact M3 |].
    split; [exact M1 |]. split; [exact HP' |]. split.
    + intros HK. apply (running_view hp (S hp) (S k)).
      now apply running_progress_tick.
    + intros HK.
      destruct (running_last_tick hp (S hp) k ts s R HK) as (S' & (f' & Hf & HB' & _) & _).
      split; [now apply succeeded_view |]. split; [apply S' |].
      unfold s'. cbn [WebConverter.dispatch]. rewrite HB', Hfmt.
      rewrite Hfile in Hf. now injection Hf as <-.
Qed.

Lemma progress_monotone_until_success_witness :
  let f := {| WebConverter.name := "report.pdf"; WebConverter.bytes := [] |} in
  let ticks := repeat (WebConverter.IntervalFires 1 "t") 74 in
  let s := WebConverter.run ticks
             (WebConverter.dispatch (WebConverter.FileChange (Some f))
                (WebConverter.initial WebConverter.excel true)) in
  WebConverter.view s = WebConverter.RunningView
  /\ WebConverter.view (WebConverter.dispatch (WebConverter.IntervalFires 1 "t") s)
     = WebConverter.SucceededView.
Proof.
  pose proof (progress_monotone_until_success WebConverter.excel true []
                {| WebConverter.name := "report.pdf"; WebConverter.bytes := [] |}
                (repeat (WebConverter.IntervalFires 1 "t") 74) "t"
                eq_refl ltac:(vm_compute; lia)) as H.
  cbv zeta in H.
  destruct H as (_ & V & _ & _ & _ & _ & _ & _ & _ & _ & _ & L).
  split; [exact V | exact (proj1 (L eq_refl))].
Defined.

(** ** Reset, file selection and re-download *)

Lemma succeeded_resetTask (s : WebConverter.State) :
  Invariant.succeeded s -> Invariant.idle (WebConverter.resetTask s).
Proof.
  intros (L & D & E & I & P & M & blob & f & B & F).
  unfold Invariant.idle, WebConverter.resetTask, WebConverter.call_onErrorUpdate.
  destruct s as [fmt cb eu fl ld dr er sm tl sp rb pt tt iv nh dl]. cbn in *. subst.
  destruct cb; split; reflexivity.
Qed.

Lemma timer_active_none (ref : option nat) (s : WebConverter.State) :
  WebConverter.intervals s = [] -> WebConverter.timer_active ref s = false.
Proof. intros H. unfold WebConverter.timer_active. rewrite H. now destruct ref. Qed.

Lemma shown_below_100 (k : nat) :
  k < WebConverter.last_tick -> leb 100 (WebConverter.shown_after k) = false.
Proof.
  intros Hk. apply negb_true_iff.
  apply (forallb_below (fun k => negb (leb 100 (WebConverter.shown_after k)))
           WebConverter.last_tick); [| exact Hk].
  vm_compute. reflexivity.
Qed.

Lemma progress_ticks_repeat (hp : nat) (ts : string) (n : nat) :
  WebConverter.progress_ticks hp (repeat (WebConverter.IntervalFires hp ts) n) = n.
Proof.
  induction n as [|n IH]; [reflexivity |].
  cbn [repeat]. rewrite progress_ticks_cons, IH. cbn. now rewrite Nat.eqb_refl.
Qed.

(** A state in which a run is over: progress shows 100, the task is not
    loading, no interval is active, neither ref names an active interval and
    the firing of any handle changes nothing. *)
Lemma succeeded_quiet (s : WebConverter.State) :
  Invariant.succeeded s ->
  WebConverter.simProgress s = 100%float
  /\ WebConverter.loading s = false
  /\ WebConverter.intervals s = []
  /\ WebConverter.timer_active (WebConverter.progressTimer s) s = false
  /\ WebConverter.timer_active (WebConverter.telemetryTimer s) s = false
  /\ forall h ts, WebConverter.dispatch (WebConverter.IntervalFires h ts) s = s.
Proof.
  intros (L & _ & _ & I & P & _).
  split; [exact P |]. split; [exact L |]. split; [exact I |].
  split; [now apply timer_active_none |]. split; [now apply timer_active_none |].
  intros h ts. cbn. now apply fireInterval_none.
Qed.

(** C1, as the code has it. In every state the panel can reach: (1) a firing
    of the progress interval that brings its counter to 100 or more ends the
    run: progress shows 100, the task stops loading, both intervals are
    cleared, neither ref names an active interval and no later firing of any
    handle changes anything; (2) every running task gets there: after at most
    75 firings of the progress interval named by the ref the run is over in
    that sense; (3) whenever progress shows 100 the task is not loading and no
    interval is active; (4) whenever the task is not loading, no interval is
    active, neither ref names an active interval, and a firing of any handle
    changes nothing; (5) the firing that ends a run leaves progress at 100 and
    no interval active; (6) while the task is loading, NEW_TASK does not reach
    [resetTask], and Force_Reboot never does, the overlay being absent; (7)
    NEW_TASK in the succeeded view resets to the idle defaults with no
    interval active, so no callback fires after it. *)
Theorem no_callback_once_run_is_over
  (fmt : WebConverter.Format) (cb : bool) (events : list WebConverter.Event) :
  let s := WebConverter.run events (WebConverter.initial fmt cb) in
  (forall h ts prog f0 fmt0,
      WebConverter.find_interval h (WebConverter.intervals s)
      = Some (WebConverter.ProgressTick prog f0 fmt0) ->
      leb 100 (prog + WebConverter.increment prog) = true ->
      let s' := WebConverter.dispatch (WebConverter.IntervalFires h ts) s in
      WebConverter.simProgress s' = 100%float
      /\ WebConverter.loading s' = false
      /\ WebConverter.intervals s' = []
      /\ WebConverter.timer_active (WebConverter.progressTimer s') s' = false
      /\ WebConverter.timer_active (WebConverter.telemetryTimer s') s' = false
      /\ forall h' ts', WebConverter.dispatch (WebConverter.IntervalFires h' ts') s' = s')
  /\ (WebConverter.view s = WebConverter.RunningView ->
      exists hp n,
        WebConverter.progressTimer s = Some hp
        /\ 0 < n <= WebConverter.last_tick
        /\ forall ts,
             let s' := WebConverter.run (repeat (WebConverter.IntervalFires hp ts) n) s in
             WebConverter.simProgress s' = 100%float
             /\ WebConverter.loading s' = false
             /\ WebConverter.intervals s' = []
             /\ WebConverter.timer_active (WebConverter.progressTimer s') s' = false
             /\ WebConverter.timer_active (WebConverter.telemetryTimer s') s' = false
             /\ forall h' ts', WebConverter.dispatch (WebConverter.IntervalFires h' ts') s' = s')
  /\ (leb 100 (WebConverter.simProgress s) = true ->
      WebConverter.loading s = false /\ WebConverter.intervals s = [])
  /\ (WebConverter.loading s = false ->
     WebConverter.intervals s = []
     /\ WebConverter.timer_active (WebConverter.progressTimer s) s = false
     /\ WebConverter.timer_active (WebConverter.telemetryTimer s) s = false
     /\ forall h ts, WebConverter.dispatch (WebConverter.IntervalFires h ts) s = s)
  /\ (forall h ts,
        WebConverter.loading s = true ->
        WebConverter.loading (WebConverter.dispatch (WebConverter.IntervalFires h ts) s) = false ->
        WebConverter.simProgress (WebConverter.dispatch (WebConverter.IntervalFires h ts) s)
        = 100%float
        /\ WebConverter.intervals (WebConverter.dispatch (WebConverter.IntervalFires h ts) s) = [])
  /\ (WebConverter.loading s = true -> WebConverter.dispatch WebConverter.ClickNewTask s = s)
  /\ WebConverter.dispatch WebConverter.ClickForceReboot s = s
  /\ (WebConverter.view s = WebConverter.SucceededView ->
        let r := WebConverter.dispatch WebConverter.ClickNewTask s in
        r = WebConverter.resetTask s
        /\ WebConverter.task_fields r = WebConverter.idle_defaults
        /\ WebConverter.intervals r = []
        /\ forall h ts, WebConverter.dispatch (WebConverter.IntervalFires h ts) r = r).
Proof.
  intros s. pose proof (phase_reachable fmt cb events) as Ph. fold s in Ph.
  split; [| split; [| split; [| split; [| split; [| split; [| split]]]]]].
  - intros h ts prog f0 fmt0 Fi Hp s'.
    destruct Ph as [I | [(hp & ht & k & R) | S]].
    + destruct I as [_ I]. rewrite I in Fi. discriminate.
    + pose proof R as (_ & _ & _ & _ & Hk & _ & N & _ & _ & f1 & j & _ & IV).
      rewrite IV in Fi. cbn [WebConverter.find_interval] in Fi.
      destruct (Nat.eqb_spec hp h) as [<- | Hne].
      * injection Fi as <- _ _.
        rewrite <- prog_after_S in Hp.
        destruct (Nat.eq_dec (S k) WebConverter.last_tick) as [HK | HK].
        -- apply succeeded_quiet. exact (proj1 (running_last_tick hp ht k ts s R HK)).
        -- rewrite prog_below_100 in Hp by lia. discriminate.
      * destruct (Nat.eqb ht h); discriminate.
    + destruct S as (_ & _ & _ & I & _). rewrite I in Fi. discriminate.
  - intros V.
    destruct Ph as [I | [(hp & ht & k & R) | S]].
    + rewrite (proj1 (idle_view s I)) in V. discriminate.
    + pose proof R as (_ & _ & _ & _ & Hk & _ & _ & PT & _).
      exists hp, (S (WebConverter.last_tick - 1 - k)).
      split; [exact PT |]. split; [unfold WebConverter.last_tick in *; lia |].
      intros ts s'. apply succeeded_quiet. unfold s'.
      cbn [repeat]. rewrite repeat_cons, run_app.
      destruct (running_run hp ht (repeat (WebConverter.IntervalFires hp ts)
                                     (WebConverter.last_tick - 1 - k)) k s R) as (R' & _).
      { rewrite progress_ticks_repeat. unfold WebConverter.last_tick in *. lia. }
      rewrite progress_ticks_repeat in R'.
      apply (running_last_tick hp ht _ ts _ R').
      unfold WebConverter.last_tick in *. lia.
    + rewrite (succeeded_view s S) in V. discriminate.
  - intros H100.
    destruct Ph as [I | [(hp & ht & k & R) | S]].
    + split; [apply (idle_view s I) | apply I].
    + destruct R as (_ & _ & _ & _ & Hk & P & _).
      rewrite P, (shown_below_100 k Hk) in H100. discriminate.
    + destruct S as (L & _ & _ & I & _). auto.
  - intros Hl. destruct (phase_not_loading s Ph Hl) as [I _].
    split; [exact I |]. split; [now apply timer_active_none |].
    split; [now apply timer_active_none |].
    intros h ts. cbn. now apply fireInterval_none.
  - intros h ts Hl Hl'.
    pose proof (phase_dispatch (WebConverter.IntervalFires h ts) s Ph) as Ph'.
    destruct (phase_not_loading _ Ph' Hl') as [I' _]. split; [| exact I'].
    destruct Ph as [I | [(hp & ht & k & R) | S]].
    + rewrite (proj1 (proj2 (idle_view s I))) in Hl. discriminate.
    + cbn [WebConverter.dispatch] in *.
      destruct (Nat.eq_dec h hp) as [-> | Hp].
      * assert (Hk : k < WebConverter.last_tick) by now destruct R as (_ & _ & _ & _ & Hk & _).
        destruct (Nat.eq_dec (S k) WebConverter.last_tick) as [HK | HK].
        -- apply (running_last_tick hp ht k ts s R HK).
        -- pose proof (running_progress_tick hp ht k ts s R ltac:(lia)) as (Q & _). congruence.
      * destruct (Nat.eq_dec h ht) as [-> | Ht].
        -- pose proof (proj1 (running_telemetry_tick hp ht k ts s R)) as (Q & _). congruence.
        -- rewrite (running_other_handle hp ht k h ts s R Hp Ht) in Hl'. congruence.
    + destruct S as (Q & _). congruence.
  - intros Hl. cbn. unfold WebConverter.view. now rewrite Hl.
  - cbn. now rewrite (phase_error_none s Ph).
  - intros V r. pose proof (succeeded_of_view s Ph V) as S.
    assert (Er : r = WebConverter.resetTask s) by (unfold r; cbn; now rewrite V).
    destruct (succeeded_resetTask s S) as [T I]. rewrite Er.
    split; [reflexivity |]. split; [exact T |]. split; [exact I |].
    intros h ts. cbn. now apply fireInterval_none.
Qed.

(** C1 as stated fails: [resetTask] in the middle of a run clears no
    interval; both refs still name active intervals, and their next firings
    raise the progress and change the telemetry label. *)
Lemma resetTask_mid_run_keeps_timers :
  let f := {| WebConverter.name := "report.pdf"; WebConverter.bytes := [] |} in
  let r := WebConverter.resetTask
             (WebConverter.handleFileChange (Some f)
                (WebConverter.initial WebConverter.excel true)) in
  WebConverter.timer_active (WebConverter.progressTimer r) r = true
  /\ WebConverter.timer_active (WebConverter.telemetryTimer r) r = true
  /\ ltb (WebConverter.simProgress r)
         (WebConverter.simProgress (WebConverter.fireInterval 1 "t" r)) = true
  /\ WebConverter.telemetry r = "SYSTEM_IDLE"
  /\ WebConverter.telemetry (WebConverter.fireInterval 2 "t" r) = "LOCAL_BUFFER_SCANNING".
Proof. vm_compute. repeat split. Qed.

(** C2, as the code has it. [resetTask] writes the idle default into seven
    of the eight task fields and calls [onErrorUpdate(null)] when the host
    passed the callback; it does not write [loading]. So when the task is not
    loading, as in the succeeded view where NEW_TASK is rendered, every task
    field equals its idle default after the reset. *)
Theorem resetTask_restores_defaults_unless_loading (s : WebConverter.State) :
  let r := WebConverter.resetTask s in
  (WebConverter.file r = None
   /\ WebConverter.downloadReady r = false
   /\ WebConverter.resultBlob r = None
   /\ WebConverter.statusMessage r = ""
   /\ WebConverter.telemetry r = "SYSTEM_IDLE"
   /\ WebConverter.simProgress r = 0%float
   /\ WebConverter.error r = None
   /\ WebConverter.loading r = WebConverter.loading s
   /\ WebConverter.errorUpdates r
      = (WebConverter.errorUpdates s ++ if WebConverter.onErrorUpdate s then [None] else [])%list)
  /\ (WebConverter.loading s = false ->
      WebConverter.task_fields r = WebConverter.idle_defaults).
Proof.
  destruct s as [fmt cb eu fl ld dr er sm tl sp rb pt tt iv nh dl].
  unfold WebConverter.resetTask, WebConverter.call_onErrorUpdate. cbn.
  destruct cb; cbn; rewrite ?app_nil_r; repeat split; intros ->; reflexivity.
Qed.

Lemma resetTask_restores_defaults_unless_loading_witness :
  let f := {| WebConverter.name := "report.pdf"; WebConverter.bytes := [] |} in
  let done := WebConverter.run
                (WebConverter.FileChange (Some f)
                 :: repeat (WebConverter.IntervalFires 1 "t") 75)
                (WebConverter.initial WebConverter.excel true) in
  WebConverter.view done = WebConverter.SucceededView
  /\ WebConverter.task_fields (WebConverter.resetTask done) = WebConverter.idle_defaults.
Proof.
  split; [vm_compute; reflexivity |].
  refine (proj2 (resetTask_restores_defaults_unless_loading _) _).
  vm_compute. reflexivity.
Defined.

(** C2 as stated fails: after [resetTask] in the middle of a run the task is
    still loading, which is not the idle default. *)
Lemma resetTask_mid_run_still_loading :
  let f := {| WebConverter.name := "report.pdf"; WebConverter.bytes := [] |} in
  let r := WebConverter.resetTask
             (WebConverter.handleFileChange (Some f)
                (WebConverter.initial WebConverter.excel true)) in
  WebConverter.loading r = true
  /\ WebConverter.task_fields r <> WebConverter.idle_defaults.
Proof.
  split; [reflexivity |]. intros H.
  apply (f_equal (fun t => snd (fst (fst (fst (fst (fst (fst t)))))))) in H.
  vm_compute in H. discriminate.
Qed.

(** C3, as the code has it. While the task is loading the file input is not
    rendered, so a file selection does not reach [handleFileChange]: the
    state, with its run, its intervals and its absent error, stays as it is.
    [handleFileChange] itself ignores only a change event that carries no
    file. *)
Theorem file_input_absent_while_loading
  (files0 : option WebConverter.File) (s : WebConverter.State) :
  WebConverter.loading s = true ->
  WebConverter.dispatch (WebConverter.FileChange files0) s = s
  /\ WebConverter.handleFileChange None s = s.
Proof.
  intros L. split; [| reflexivity].
  cbn. unfold WebConverter.view. now rewrite L.
Qed.

Lemma file_input_absent_while_loading_witness :
  let f := {| WebConverter.name := "a.pdf"; WebConverter.bytes := [] |} in
  let g := {| WebConverter.name := "b.pdf"; WebConverter.bytes := [] |} in
  let mid := WebConverter.dispatch (WebConverter.FileChange (Some f))
               (WebConverter.initial WebConverter.excel true) in
  WebConverter.loading mid = true
  /\ WebConverter.dispatch (WebConverter.FileChange (Some g)) mid = mid.
Proof.
  split; [reflexivity |].
  exact (proj1 (file_input_absent_while_loading
                  (Some {| WebConverter.name := "b.pdf"; WebConverter.bytes := [] |})
                  (WebConverter.dispatch
                     (WebConverter.FileChange
                        (Some {| WebConverter.name := "a.pdf"; WebConverter.bytes := [] |}))
                     (WebConverter.initial WebConverter.excel true))
                  eq_refl)).
Defined.

(** C3 as stated fails: [handleFileChange] called with a file in the middle
    of a run does not ignore it. It replaces the file, starts two more
    intervals and leaves the two of the first run active. *)
Lemma handleFileChange_mid_run_restarts :
  let f := {| WebConverter.name := "a.pdf"; WebConverter.bytes := [] |} in
  let g := {| WebConverter.name := "b.pdf"; WebConverter.bytes := [] |} in
  let mid := WebConverter.handleFileChange (Some f)
               (WebConverter.initial WebConverter.excel true) in
  let again := WebConverter.handleFileChange (Some g) mid in
  WebConverter.loading mid = true
  /\ again <> mid
  /\ WebConverter.file again = Some g
  /\ map fst (WebConverter.intervals again) = [1; 2; 3; 4].
Proof.
  split; [reflexivity |]. split; [| split; reflexivity].
  intros H. apply (f_equal WebConverter.nextHandle) in H. vm_compute in H. discriminate.
Qed.

(** C10. In the succeeded view, after the format is switched to [fmt'] a
    click on RE-DOWNLOAD saves the stored payload, unchanged, under the name
    built with the extension of [fmt']; the payload itself stays the one the
    run produced. *)
Theorem redownload_uses_current_format
  (s : WebConverter.State) (blob : WebConverter.Blob) (f : WebConverter.File)
  (fmt' : WebConverter.Format) :
  WebConverter.view s = WebConverter.SucceededView ->
  WebConverter.resultBlob s = Some blob ->
  WebConverter.file s = Some f ->
  let s' := WebConverter.dispatch WebConverter.ClickReDownload
              (WebConverter.dispatch (WebConverter.ClickFormat fmt') s) in
  WebConverter.downloads s'
  = (WebConverter.downloads s
     ++ [(WebConverter.download_name fmt' (WebConverter.name f), blob)])%list
  /\ WebConverter.download_name fmt' (WebConverter.name f)
     = JS.replace (WebConverter.name f) ".pdf" "" ++ "_v42." ++ WebConverter.extension fmt'
  /\ WebConverter.resultBlob s' = Some blob
  /\ WebConverter.format s' = fmt'.
Proof.
  intros V B F.
  assert (L : WebConverter.loading s = false).
  { unfold WebConverter.view in V. destruct (WebConverter.loading s); [| reflexivity].
    cbn in V. discriminate. }
  cbn. rewrite L. unfold WebConverter.view in *. cbn. rewrite L in *.
  destruct (WebConverter.downloadReady s); cbn in *; [| discriminate].
  rewrite B, F. cbn. auto.
Qed.

Lemma redownload_uses_current_format_witness :
  let f := {| WebConverter.name := "report.pdf"; WebConverter.bytes := [] |} in
  let done := WebConverter.run
                (WebConverter.FileChange (Some f)
                 :: repeat (WebConverter.IntervalFires 1 "t") 75)
                (WebConverter.initial WebConverter.excel true) in
  let again := WebConverter.dispatch WebConverter.ClickReDownload
                 (WebConverter.dispatch (WebConverter.ClickFormat WebConverter.word) done) in
  WebConverter.downloads done
  = [("report_v42.xlsx", WebConverter.finishConversion_blob WebConverter.excel "t" f)]
  /\ WebConverter.downloads again
     = [("report_v42.xlsx", WebConverter.finishConversion_blob WebConverter.excel "t" f);
        ("report_v42.txt", WebConverter.finishConversion_blob WebConverter.excel "t" f)].
Proof.
  split; [vm_compute; reflexivity |].
  refine (eq_trans
            (proj1 (redownload_uses_current_format
                      (WebConverter.run
                         (WebConverter.FileChange
                            (Some {| WebConverter.name := "report.pdf"; WebConverter.bytes := [] |})
                          :: repeat (WebConverter.IntervalFires 1 "t") 75)
                         (WebConverter.initial WebConverter.excel true))
                      (WebConverter.finishConversion_blob WebConverter.excel "t"
                         {| WebConverter.name := "report.pdf"; WebConverter.bytes := [] |})
                      {| WebConverter.name := "report.pdf"; WebConverter.bytes := [] |}
                      WebConverter.word _ _ _)) _);
    vm_compute; reflexivity.
Defined.

(** * Further properties of the assistant panel *)

(** ** Trimming and blank input *)

Lemma blank_trimStart (s : string) : JS.blank (JS.trimStart s) = JS.blank s.
Proof.
  assert (G : forall n s, String.length s <= n -> JS.blank (JS.trimStart s) = JS.blank s).
  { clear s. induction n as [|n IH]; intros s Hn.
    - destruct s; [reflexivity | cbn in Hn; lia].
    - destruct s as [|c1 r1]; [reflexivity |].
      cbn [JS.trimStart]. cbn [String.length] in Hn.
      destruct (JS.is_space c1) eqn:E1.
      + rewrite IH by lia. cbn [JS.blank]. now rewrite E1.
      + destruct r1 as [|c2 r2]; [reflexivity |]. cbn [String.length] in Hn.
        destruct (JS.space2 c1 c2) eqn:E2.
        * rewrite IH by lia. cbn [JS.blank]. now rewrite E1, E2.
        * destruct r2 as [|c3 r3]; [reflexivity |]. cbn [String.length] in Hn.
          destruct (JS.space3 c1 c2 c3) eqn:E3; [| reflexivity].
          rewrite IH by lia. cbn [JS.blank]. now rewrite E1, E2, E3. }
  apply (G (String.length s)). lia.
Qed.

Lemma trimEnd_blank (s : string) : JS.trimEnd s = "" <-> JS.blank s = true.
Proof.
  destruct s as [|c s]; [split; reflexivity |].
  cbn [JS.trimEnd]. destruct (JS.blank (String c s)); split; (reflexivity || discriminate).
Qed.

Lemma trim_blank (s : string) : JS.trim s = "" <-> JS.blank s = true.
Proof. unfold JS.trim. now rewrite trimEnd_blank, blank_trimStart. Qed.

(** X1. [handleSubmit] does nothing exactly when the input holds only white
    space, ASCII or not, as [trim] understands it (or nothing), or a reply is
    pending; otherwise it takes the input:
    the trimmed text goes to the transcript as a user message, the box is
    emptied, the panel is pending and one timeout is registered for that
    text. *)
Theorem handleSubmit_ignored_iff_blank_or_pending (st : AIAssistant.State) :
  (AIAssistant.handleSubmit st = st
   <-> JS.blank (AIAssistant.input st) = true \/ AIAssistant.loading st = true)
  /\ (JS.blank (AIAssistant.input st) = false -> AIAssistant.loading st = false ->
      let st' := AIAssistant.handleSubmit st in
      AIAssistant.messages st'
      = (AIAssistant.messages st
         ++ [ {| AIAssistant.role := AIAssistant.user;
                 AIAssistant.text := JS.trim (AIAssistant.input st) |} ])%list
      /\ AIAssistant.input st' = ""
      /\ AIAssistant.loading st' = true
      /\ AIAssistant.timeouts st'
         = (AIAssistant.timeouts st
            ++ [(AIAssistant.nextHandle st, JS.trim (AIAssistant.input st))])%list).
Proof.
  assert (T : (JS.trim (AIAssistant.input st) =? "") = JS.blank (AIAssistant.input st)).
  { destruct (String.eqb_spec (JS.trim (AIAssistant.input st)) "") as [E | E].
    - symmetry. now apply trim_blank.
    - destruct (JS.blank (AIAssistant.input st)) eqn:B; [| reflexivity].
      apply trim_blank in B. contradiction. }
  unfold AIAssistant.handleSubmit. rewrite T. split.
  - destruct (JS.blank (AIAssistant.input st)) eqn:B; cbn.
    + split; auto.
    + destruct (AIAssistant.loading st) eqn:L; cbn.
      * split; auto.
      * split; [| intros [H | H]; discriminate].
        intros H. apply (f_equal AIAssistant.loading) in H. cbn in H. congruence.
  - intros B L. rewrite B, L. cbn. auto.
Qed.

Lemma handleSubmit_ignored_iff_blank_or_pending_witness :
  let nbsp := String "194"%char (String "160"%char "") in
  let st := AIAssistant.setInput (nbsp ++ " how do I start " ++ nbsp) AIAssistant.initial in
  AIAssistant.messages (AIAssistant.handleSubmit st)
  = (AIAssistant.messages AIAssistant.initial
     ++ [ {| AIAssistant.role := AIAssistant.user; AIAssistant.text := "how do I start" |} ])%list
  /\ AIAssistant.handleSubmit (AIAssistant.setInput nbsp AIAssistant.initial)
     = AIAssistant.setInput nbsp AIAssistant.initial.
Proof.
  split.
  - exact (proj1 (proj2 (handleSubmit_ignored_iff_blank_or_pending
                           (AIAssistant.setInput
                              (String "194"%char (String "160"%char "")
                               ++ " how do I start "
                               ++ String "194"%char (String "160"%char ""))
                              AIAssistant.initial))
                    eq_refl eq_refl)).
  - exact (proj2 (proj1 (handleSubmit_ignored_iff_blank_or_pending
                           (AIAssistant.setInput (String "194"%char (String "160"%char ""))
                              AIAssistant.initial)))
                 (or_introl eq_refl)).
Defined.

(** ** The transcript *)

Lemma deliver_fields (v : option string) (st : AIAssistant.State) :
  AIAssistant.loading (AIAssistant.deliver v st) = AIAssistant.loading st
  /\ AIAssistant.timeouts (AIAssistant.deliver v st) = AIAssistant.timeouts st
  /\ AIAssistant.nextHandle (AIAssistant.deliver v st) = AIAssistant.nextHandle st
  /\ AIAssistant.input (AIAssistant.deliver v st) = AIAssistant.input st
  /\ (AIAssistant.messages (AIAssistant.deliver v st) = AIAssistant.messages st
      \/ exists e, v = Some e
           /\ AIAssistant.messages (AIAssistant.deliver v st)
              = (AIAssistant.messages st ++ [AIAssistant.alert e])%list).
Proof.
  unfold AIAssistant.deliver, AIAssistant.errorEffect.
  destruct (AIAssistant.deps_changed st v); [| tauto].
  destruct v as [e|]; [| cbn; tauto].
  destruct (_ && _); cbn; [| tauto].
  repeat split. right. now exists e.
Qed.

Lemma fireTimeout_cases (h : nat) (st : AIAssistant.State) :
  (AIAssistant.find_timeout h (AIAssistant.timeouts st) = None
   /\ AIAssistant.fireTimeout h st = st)
  \/ (exists m,
        AIAssistant.find_timeout h (AIAssistant.timeouts st) = Some m
        /\ AIAssistant.messages (AIAssistant.fireTimeout h st)
           = (AIAssistant.messages st
              ++ [ {| AIAssistant.role := AIAssistant.ai;
                      AIAssistant.text := AIAssistant.getStaticResponse m |} ])%list
        /\ AIAssistant.loading (AIAssistant.fireTimeout h st) = false
        /\ AIAssistant.timeouts (AIAssistant.fireTimeout h st)
           = filter (fun e => negb (Nat.eqb (fst e) h)) (AIAssistant.timeouts st)
        /\ AIAssistant.nextHandle (AIAssistant.fireTimeout h st) = AIAssistant.nextHandle st
        /\ AIAssistant.input (AIAssistant.fireTimeout h st) = AIAssistant.input st).
Proof.
  unfold AIAssistant.fireTimeout.
  destruct (AIAssistant.find_timeout h (AIAssistant.timeouts st)) as [m|].
  - right. exists m. cbn. repeat split.
  - now left.
Qed.

Lemma handleSubmit_cases (st : AIAssistant.State) :
  AIAssistant.handleSubmit st = st
  \/ (AIAssistant.loading st = false
      /\ AIAssistant.messages (AIAssistant.handleSubmit st)
         = (AIAssistant.messages st
            ++ [ {| AIAssistant.role := AIAssistant.user;
                    AIAssistant.text := JS.trim (AIAssistant.input st) |} ])%list
      /\ AIAssistant.loading (AIAssistant.handleSubmit st) = true
      /\ AIAssistant.timeouts (AIAssistant.handleSubmit st)
         = (AIAssistant.timeouts st
            ++ [(AIAssistant.nextHandle st, JS.trim (AIAssistant.input st))])%list
      /\ AIAssistant.nextHandle (AIAssistant.handleSubmit st) = S (AIAssistant.nextHandle st)).
Proof.
  unfold AIAssistant.handleSubmit.
  destruct (_ =? _); cbn; [now left |].
  destruct (AIAssistant.loading st); cbn; [now left |]. right. repeat split.
Qed.

Lemma assistant_run_snoc (l : list AIAssistant.Event) (e : AIAssistant.Event)
  (st : AIAssistant.State) :
  AIAssistant.run (l ++ [e]) st = AIAssistant.dispatch e (AIAssistant.run l st).
Proof. unfold AIAssistant.run. now rewrite fold_left_app. Qed.

(** Each event appends at most one message and changes none. *)
Lemma dispatch_appends (e : AIAssistant.Event) (st : AIAssistant.State) :
  exists added,
    AIAssistant.messages (AIAssistant.dispatch e st) = (AIAssistant.messages st ++ added)%list
    /\ List.length added <= 1.
Proof.
  destruct e as [v | | h | v]; cbn [AIAssistant.dispatch].
  - exists []. cbn. rewrite app_nil_r. auto.
  - destruct (handleSubmit_cases st) as [-> | (_ & M & _)].
    + exists []. rewrite app_nil_r. auto.
    + eexists. split; [exact M | cbn; lia].
  - destruct (fireTimeout_cases h st) as [(_ & ->) | (m & _ & M & _)].
    + exists []. rewrite app_nil_r. auto.
    + eexists. split; [exact M | cbn; lia].
  - destruct (deliver_fields v st) as (_ & _ & _ & _ & [M | (e & _ & M)]).
    + exists []. rewrite app_nil_r. auto.
    + eexists. split; [exact M | cbn; lia].
Qed.

(** X2. The transcript is append-only: whatever happens to the panel, in any
    state, the messages it had stay in place and in order, and each event
    adds at most one message behind them. In particular the greeting stays
    the first message. *)
Theorem transcript_append_only (events : list AIAssistant.Event) (st : AIAssistant.State) :
  (exists added,
     AIAssistant.messages (AIAssistant.run events st) = (AIAssistant.messages st ++ added)%list
     /\ List.length added <= List.length events)
  /\ hd_error (AIAssistant.messages (AIAssistant.run events AIAssistant.initial))
     = Some {| AIAssistant.role := AIAssistant.ai;
               AIAssistant.text := "System Guide active. I can assist with your document conversion parameters." |}.
Proof.
  assert (G : forall l s, exists added,
             AIAssistant.messages (AIAssistant.run l s) = (AIAssistant.messages s ++ added)%list
             /\ List.length added <= List.length l).
  { intros l. induction l as [|e l IH] using rev_ind; intros s.
    - exists []. cbn. rewrite app_nil_r. auto.
    - rewrite assistant_run_snoc. destruct (IH s) as (a1 & M1 & L1).
      destruct (dispatch_appends e (AIAssistant.run l s)) as (a2 & M2 & L2).
      exists (a1 ++ a2)%list. rewrite M2, M1, <- app_assoc, !length_app. cbn. split; [reflexivity | lia]. }
  split; [apply G |].
  destruct (G events AIAssistant.initial) as (added & M & _). now rewrite M.
Qed.

(** ** Pending replies *)

Lemma one_pending_initial : Derived.one_pending AIAssistant.initial.
Proof. left. split; reflexivity. Qed.

Lemma one_pending_dispatch (e : AIAssistant.Event) (st : AIAssistant.State) :
  Derived.one_pending st -> Derived.one_pending (AIAssistant.dispatch e st).
Proof.
  intros P. destruct e as [v | | h | v]; cbn [AIAssistant.dispatch].
  - exact P.
  - destruct (handleSubmit_cases st) as [-> | (L & _ & L' & T & N)]; [exact P |].
    destruct P as [(_ & T0) | (L1 & _)]; [| congruence].
    right. split; [exact L' |]. rewrite T, T0, N. cbn. eexists _, _. split; [reflexivity | lia].
  - destruct (fireTimeout_cases h st) as [(_ & ->) | (m & Fm & _ & L' & T & N & _)]; [exact P |].
    left. split; [exact L' |]. rewrite T.
    destruct P as [(_ & T0) | (_ & h0 & m0 & T0 & _)]; rewrite T0 in *; [reflexivity |].
    cbn in *. destruct (Nat.eqb h0 h); [reflexivity | discriminate].
  - destruct (deliver_fields v st) as (L & T & N & _).
    unfold Derived.one_pending. now rewrite L, T, N.
Qed.

Lemma one_pending_run (events : list AIAssistant.Event) (st : AIAssistant.State) :
  Derived.one_pending st -> Derived.one_pending (AIAssistant.run events st).
Proof.
  revert st; induction events as [|e l IH]; intros st P; [exact P |].
  apply IH, one_pending_dispatch, P.
Qed.

(** X3. At most one reply is ever pending. In every state the panel reaches,
    it is loading exactly when one timeout is registered, and none is
    registered otherwise. When that timeout fires, the canned reply to the
    text it was registered for is appended, loading is cleared and nothing
    stays registered; the firing of any other handle changes nothing; and a
    submit while loading changes nothing. *)
Theorem at_most_one_reply_pending (events : list AIAssistant.Event) :
  let st := AIAssistant.run events AIAssistant.initial in
  List.length (AIAssistant.timeouts st) = (if AIAssistant.loading st then 1 else 0)
  /\ (forall h m,
        AIAssistant.find_timeout h (AIAssistant.timeouts st) = Some m ->
        let st' := AIAssistant.dispatch (AIAssistant.TimeoutFires h) st in
        AIAssistant.messages st'
        = (AIAssistant.messages st
           ++ [ {| AIAssistant.role := AIAssistant.ai;
                   AIAssistant.text := AIAssistant.getStaticResponse m |} ])%list
        /\ AIAssistant.loading st' = false
        /\ AIAssistant.timeouts st' = [])
  /\ (forall h,
        AIAssistant.find_timeout h (AIAssistant.timeouts st) = None ->
        AIAssistant.dispatch (AIAssistant.TimeoutFires h) st = st)
  /\ (AIAssistant.loading st = true -> AIAssistant.dispatch AIAssistant.Submit st = st).
Proof.
  intros st.
  pose proof (one_pending_run events _ one_pending_initial) as P. fold st in P.
  split; [| split; [| split]].
  - destruct P as [(L & T) | (L & h & m & T & _)]; now rewrite L, T.
  - intros h m Fm st'.
    pose proof (one_pending_dispatch (AIAssistant.TimeoutFires h) st P) as P'.
    fold st' in P'. unfold st' in *. cbn [AIAssistant.dispatch] in *.
    destruct (fireTimeout_cases h st) as [(Fn & _) | (m' & Fm' & M & L' & _)]; [congruence |].
    rewrite Fm in Fm'. injection Fm' as <-.
    split; [exact M |]. split; [exact L' |].
    destruct P' as [(_ & T') | (L1 & _)]; [exact T' | congruence].
  - intros h Fn. cbn. unfold AIAssistant.fireTimeout. now rewrite Fn.
  - intros L. cbn. unfold AIAssistant.handleSubmit. rewrite L.
    now rewrite orb_true_r.
Qed.

Lemma reply_is_plain (m : string) :
  Derived.is_plain_ai
    {| AIAssistant.role := AIAssistant.ai; AIAssistant.text := AIAssistant.getStaticResponse m |}
  = true.
Proof.
  unfold AIAssistant.getStaticResponse.
  destruct (_ || _); [reflexivity |]. destruct (_ || _); [reflexivity |].
  destruct (_ || _); reflexivity.
Qed.

Lemma alert_is_alert (e : string) : AIAssistant.is_alert (AIAssistant.alert e) = true.
Proof. reflexivity. Qed.

Lemma count_snoc {A : Type} (p : A -> bool) (l : list A) (x : A) :
  List.length (filter p (l ++ [x])) = List.length (filter p l) + (if p x then 1 else 0).
Proof. rewrite filter_app, length_app. cbn. now destruct (p x). Qed.

(** X4. Every user message gets exactly one reply. In every state the panel
    reaches, the assistant messages that are not alerts are the greeting and
    one reply for each user message, less the one reply still pending; and
    the alerts never outnumber the error values delivered. *)
Theorem one_reply_per_user_message (events : list AIAssistant.Event) :
  let st := AIAssistant.run events AIAssistant.initial in
  Derived.plain_ai_count st + Derived.pending st = 1 + Derived.user_count st
  /\ AIAssistant.alert_count st
     <= List.length (filter (fun e => match e with
                                      | AIAssistant.ErrorState (Some _) => true
                                      | _ => false
                                      end) events).
Proof.
  induction events as [|e l IH] using rev_ind; [split; [reflexivity | cbn; lia] |].
  rewrite assistant_run_snoc. cbv zeta in *.
  set (st := AIAssistant.run l AIAssistant.initial) in *.
  pose proof (one_pending_run l _ one_pending_initial) as P. fold st in P.
  destruct IH as [C A].
  unfold Derived.plain_ai_count, Derived.user_count, Derived.pending,
    AIAssistant.alert_count in *.
  rewrite filter_app, length_app.
  destruct e as [v | | h | v]; cbn [AIAssistant.dispatch filter List.length].
  - cbn [AIAssistant.setInput AIAssistant.messages AIAssistant.loading]. split; [exact C | lia].
  - destruct (handleSubmit_cases st) as [-> | (L & M & L' & _)]; [split; [exact C | lia] |].
    rewrite M, L', !count_snoc. rewrite L in C. cbn. split; lia.
  - destruct (fireTimeout_cases h st) as [(_ & ->) | (m & Fm & M & L' & _)];
      [split; [exact C | lia] |].
    assert (L : AIAssistant.loading st = true).
    { destruct P as [(_ & T) | (L & _)]; [| exact L]. rewrite T in Fm. discriminate. }
    rewrite M, L', !count_snoc. rewrite L in C.
    pose proof (reply_is_plain m) as R.
    assert (R' : AIAssistant.is_alert
                   {| AIAssistant.role := AIAssistant.ai;
                      AIAssistant.text := AIAssistant.getStaticResponse m |} = false).
    { unfold Derived.is_plain_ai in R. cbn [AIAssistant.role] in R.
      now apply negb_true_iff in R. }
    assert (U : Derived.is_user
                  {| AIAssistant.role := AIAssistant.ai;
                     AIAssistant.text := AIAssistant.getStaticResponse m |} = false)
      by reflexivity.
    rewrite R, R', U. split; lia.
  - destruct (deliver_fields v st) as (L & _ & _ & _ & [M | (x & -> & M)]); rewrite M, L.
    + split; [exact C |]. destruct v; cbn [List.length]; lia.
    + assert (U : Derived.is_user (AIAssistant.alert x) = false) by reflexivity.
      assert (Q : Derived.is_plain_ai (AIAssistant.alert x) = false) by reflexivity.
      rewrite !count_snoc, alert_is_alert, U, Q. cbn [List.length]. split; lia.
Qed.

(** * Further properties of the conversion panel *)

(** ** What is forwarded to the host *)

Lemma fireInterval_frame (h : nat) (ts : string) (s : WebConverter.State) :
  WebConverter.errorUpdates (WebConverter.fireInterval h ts s) = WebConverter.errorUpdates s
  /\ WebConverter.onErrorUpdate (WebConverter.fireInterval h ts s) = WebConverter.onErrorUpdate s
  /\ WebConverter.format (WebConverter.fireInterval h ts s) = WebConverter.format s
  /\ WebConverter.error (WebConverter.fireInterval h ts s) = WebConverter.error s
  /\ WebConverter.file (WebConverter.fireInterval h ts s) = WebConverter.file s
  /\ WebConverter.nextHandle (WebConverter.fireInterval h ts s) = WebConverter.nextHandle s
  /\ WebConverter.progressTimer (WebConverter.fireInterval h ts s) = WebConverter.progressTimer s
  /\ WebConverter.telemetryTimer (WebConverter.fireInterval h ts s) = WebConverter.telemetryTimer s.
Proof.
  destruct s as [fmt0 cb eu fl ld dr er sm tl sp rb pt tt iv nh dl].
  unfold WebConverter.fireInterval. cbn [WebConverter.intervals].
  destruct (WebConverter.find_interval h iv) as [[p f fmt | j] |];
    [| repeat split | repeat split].
  unfold WebConverter.progressCallback. cbv zeta.
  destruct (leb 100 _); [| repeat split].
  unfold WebConverter.finishConversion, WebConverter.cleanupTimers. cbn.
  destruct pt, tt; repeat split.
Qed.

Lemma dispatch_errorUpdates (e : WebConverter.Event) (s : WebConverter.State) :
  WebConverter.onErrorUpdate (WebConverter.dispatch e s) = WebConverter.onErrorUpdate s
  /\ exists n,
       WebConverter.errorUpdates (WebConverter.dispatch e s)
       = (WebConverter.errorUpdates s ++ repeat None n)%list
       /\ (WebConverter.onErrorUpdate s = false -> n = 0).
Proof.
  assert (Z : WebConverter.onErrorUpdate s = WebConverter.onErrorUpdate s
              /\ exists n, WebConverter.errorUpdates s
                           = (WebConverter.errorUpdates s ++ repeat None n)%list
                           /\ (WebConverter.onErrorUpdate s = false -> n = 0)).
  { split; [reflexivity |]. exists 0. cbn. rewrite app_nil_r. auto. }
  assert (R : WebConverter.onErrorUpdate (WebConverter.resetTask s) = WebConverter.onErrorUpdate s
              /\ exists n, WebConverter.errorUpdates (WebConverter.resetTask s)
                           = (WebConverter.errorUpdates s ++ repeat None n)%list
                           /\ (WebConverter.onErrorUpdate s = false -> n = 0)).
  { unfold WebConverter.resetTask, WebConverter.call_onErrorUpdate. cbn.
    destruct (WebConverter.onErrorUpdate s) eqn:C; cbn; rewrite C; (split; [reflexivity |]).
    - exists 1. split; [reflexivity | discriminate].
    - exists 0. cbn. rewrite app_nil_r. auto. }
  destruct e as [[f|] | fmt' | | | | | h ts]; cbn [WebConverter.dispatch].
  - destruct (WebConverter.view s); try exact Z.
    unfold WebConverter.handleFileChange, WebConverter.startConversion,
      WebConverter.call_onErrorUpdate. cbn.
    destruct (WebConverter.onErrorUpdate s) eqn:C; cbn; rewrite ?C; cbn; rewrite ?C; cbn;
      (split; [reflexivity |]).
    + exists 2. rewrite <- app_assoc. split; [reflexivity | discriminate].
    + exists 0. cbn. rewrite app_nil_r. auto.
  - destruct (WebConverter.view s); exact Z.
  - destruct (WebConverter.loading s); exact Z.
  - destruct (WebConverter.view s); try exact Z.
    destruct (WebConverter.resultBlob s), (WebConverter.file s); exact Z.
  - destruct (WebConverter.view s); try exact Z. exact R.
  - destruct (WebConverter.error s); [exact R | exact Z].
  - destruct (WebConverter.error s); exact Z.
  - destruct (fireInterval_frame h ts s) as (E1 & E2 & _). rewrite E1, E2. exact Z.
Qed.

Lemma run_snoc (l : list WebConverter.Event) (e : WebConverter.Event) (s : WebConverter.State) :
  WebConverter.run (l ++ [e]) s = WebConverter.dispatch e (WebConverter.run l s).
Proof. now rewrite run_app. Qed.

Lemma run_errorUpdates (events : list WebConverter.Event) (s : WebConverter.State) :
  WebConverter.onErrorUpdate (WebConverter.run events s) = WebConverter.onErrorUpdate s
  /\ exists n,
       WebConverter.errorUpdates (WebConverter.run events s)
       = (WebConverter.errorUpdates s ++ repeat None n)%list
       /\ (WebConverter.onErrorUpdate s = false -> n = 0).
Proof.
  induction events as [|e l IH] using rev_ind.
  - split; [reflexivity |]. exists 0. cbn. rewrite app_nil_r. auto.
  - rewrite run_snoc. destruct IH as (C & n & E & Z).
    destruct (dispatch_errorUpdates e (WebConverter.run l s)) as (C' & m & E' & Z').
    split; [congruence |]. exists (n + m). rewrite E', E, <- app_assoc, repeat_app.
    split; [reflexivity |]. intros H. rewrite (Z H), (Z' ltac:(congruence)). reflexivity.
Qed.

Lemma deliver_None_messages (st : AIAssistant.State) :
  AIAssistant.messages (AIAssistant.deliver None st) = AIAssistant.messages st.
Proof.
  destruct (deliver_fields None st) as (_ & _ & _ & _ & [M | (e & E & _)]);
    [exact M | discriminate].
Qed.

(** X5. The panel never reports an error. In every state it reaches, [error]
    is null, so the overlay is absent and Dismiss reaches no handler; every
    value the panel has passed to [onErrorUpdate] is null, none at all when
    the host gave no callback; and an assistant panel that is handed those
    values, in any state, shows no alert for them. *)
Theorem conversion_never_reports_an_error
  (fmt : WebConverter.Format) (cb : bool) (events : list WebConverter.Event)
  (st : AIAssistant.State) :
  let s := WebConverter.run events (WebConverter.initial fmt cb) in
  WebConverter.error s = None
  /\ WebConverter.dispatch WebConverter.ClickDismiss s = s
  /\ Forall (fun v => v = None) (WebConverter.errorUpdates s)
  /\ (cb = false -> WebConverter.errorUpdates s = [])
  /\ AIAssistant.messages (AIAssistant.deliver_all (WebConverter.errorUpdates s) st)
     = AIAssistant.messages st.
Proof.
  intros s. pose proof (phase_error_none s (phase_reachable fmt cb events)) as E.
  destruct (run_errorUpdates events (WebConverter.initial fmt cb)) as (_ & n & U & Z).
  fold s in U. cbn in U.
  split; [exact E |]. split; [cbn; now rewrite E |]. rewrite U.
  split; [apply Forall_forall; intros v Hv; now apply repeat_spec in Hv |].
  split; [intros ->; now rewrite (Z eq_refl) |].
  clear U Z. revert st. induction n as [|n IH]; intros st; [reflexivity |].
  cbn. rewrite IH. apply deliver_None_messages.
Qed.

(** ** The task in each view *)

(** X6. What the panel shows determines the task. In every state the panel
    reaches: in the idle view every task field has its default and no
    interval is active; in the running view there is a file and no payload,
    progress is below 100 and exactly the two intervals named by the refs are
    active; in the succeeded view there is a file and a payload, progress is
    100, the status is EXTRACTION_SUCCESS and no interval is active. So a
    payload exists exactly in the succeeded view. *)
Theorem view_determines_task
  (fmt : WebConverter.Format) (cb : bool) (events : list WebConverter.Event) :
  let s := WebConverter.run events (WebConverter.initial fmt cb) in
  match WebConverter.view s with
  | WebConverter.IdleView =>
      WebConverter.task_fields s = WebConverter.idle_defaults
      /\ WebConverter.intervals s = []
  | WebConverter.RunningView =>
      WebConverter.resultBlob s = None
      /\ (exists f, WebConverter.file s = Some f)
      /\ ltb (WebConverter.simProgress s) 100 = true
      /\ List.length (WebConverter.intervals s) = 2
      /\ WebConverter.timer_active (WebConverter.progressTimer s) s = true
      /\ WebConverter.timer_active (WebConverter.telemetryTimer s) s = true
  | WebConverter.SucceededView =>
      (exists blob f, WebConverter.resultBlob s = Some blob /\ WebConverter.file s = Some f)
      /\ WebConverter.simProgress s = 100%float
      /\ WebConverter.statusMessage s = "EXTRACTION_SUCCESS"
      /\ WebConverter.intervals s = []
  end.
Proof.
  intros s. pose proof (phase_reachable fmt cb events) as Ph. fold s in Ph.
  destruct Ph as [I | [(hp & ht & k & R) | S]].
  - rewrite (proj1 (idle_view s I)). exact I.
  - rewrite (running_view _ _ _ _ R).
    destruct R as (_ & _ & _ & B & K & P & N & PT & TT & f & j & F & IV).
    split; [exact B |]. split; [now exists f |].
    split; [rewrite P; apply (shown_increases k K) |].
    unfold WebConverter.timer_active. rewrite PT, TT, IV. cbn.
    rewrite !Nat.eqb_refl. apply Nat.eqb_neq in N. rewrite N. auto.
  - rewrite (succeeded_view s S). destruct S as (_ & _ & _ & I & P & M & B). auto.
Qed.

(** ** Clearing the timers *)

Lemma find_interval_cleared (h h0 : nat) (tbl : list (nat * WebConverter.Interval)) :
  WebConverter.find_interval h (filter (fun e => negb (Nat.eqb (fst e) h0)) tbl)
  = if Nat.eqb h h0 then None else WebConverter.find_interval h tbl.
Proof.
  induction tbl as [|[k cb] rest IH]; cbn; [now destruct (Nat.eqb h h0) |].
  destruct (Nat.eqb_spec k h0) as [-> | K]; cbn.
  - rewrite IH. destruct (Nat.eqb_spec h h0) as [-> | H]; [reflexivity |].
    apply not_eq_sym, Nat.eqb_neq in H. now rewrite H.
  - rewrite IH. destruct (Nat.eqb_spec h h0) as [-> | H]; [| reflexivity].
    apply Nat.eqb_neq in K. now rewrite K.
Qed.

(** X7. [cleanupTimers] clears exactly the intervals the two refs name. In
    any state, afterwards neither ref names an active interval, every
    interval with another handle is as it was (so an interval the refs no
    longer name is never cleared), the refs keep their handles, and no task
    field changes; [cleanup] does the same and clears [loading]. *)
Theorem cleanupTimers_clears_the_named_intervals (s : WebConverter.State) :
  let c := WebConverter.cleanupTimers s in
  WebConverter.timer_active (WebConverter.progressTimer s) c = false
  /\ WebConverter.timer_active (WebConverter.telemetryTimer s) c = false
  /\ (forall h,
        WebConverter.progressTimer s <> Some h ->
        WebConverter.telemetryTimer s <> Some h ->
        WebConverter.find_interval h (WebConverter.intervals c)
        = WebConverter.find_interval h (WebConverter.intervals s))
  /\ WebConverter.progressTimer c = WebConverter.progressTimer s
  /\ WebConverter.telemetryTimer c = WebConverter.telemetryTimer s
  /\ WebConverter.task_fields c = WebConverter.task_fields s
  /\ WebConverter.loading (WebConverter.cleanup s) = false
  /\ WebConverter.intervals (WebConverter.cleanup s) = WebConverter.intervals c.
Proof.
  assert (A : forall h tbl,
             WebConverter.find_interval h (filter (fun e => negb (Nat.eqb (fst e) h)) tbl) = None).
  { intros h tbl. now rewrite find_interval_cleared, Nat.eqb_refl. }
  assert (B : forall h h1 tbl,
             WebConverter.find_interval h tbl = None ->
             WebConverter.find_interval h (filter (fun e => negb (Nat.eqb (fst e) h1)) tbl) = None).
  { intros h h1 tbl H. rewrite find_interval_cleared, H. now destruct (Nat.eqb h h1). }
  assert (C : forall h h1 tbl, h1 <> h ->
             WebConverter.find_interval h (filter (fun e => negb (Nat.eqb (fst e) h1)) tbl)
             = WebConverter.find_interval h tbl).
  { intros h h1 tbl H. rewrite find_interval_cleared.
    apply not_eq_sym, Nat.eqb_neq in H. now rewrite H. }
  destruct s as [fmt cb eu fl ld dr er sm tl sp rb pt tt iv nh dl].
  unfold WebConverter.cleanup, WebConverter.cleanupTimers, WebConverter.clearInterval,
    WebConverter.timer_active.
  destruct pt as [hp|], tt as [ht|]; cbn.
  - rewrite (B hp ht _ (A hp iv)), A. repeat split.
    intros h H1 H2. rewrite !C; congruence.
  - rewrite A. repeat split. intros h H1 H2. rewrite C; congruence.
  - rewrite A. repeat split. intros h H1 H2. rewrite C; congruence.
  - repeat split.
Qed.

(** ** Telemetry and downloads during a run *)

(** One event in a running task, the last progress tick apart: nothing is
    downloaded, and the telemetry interval advances by one label when it is
    the one that fires. *)
Lemma running_step (hp ht k j : nat) (e : WebConverter.Event) (s : WebConverter.State) :
  Invariant.running hp ht k s ->
  (WebConverter.fires_of hp e = true -> S k < WebConverter.last_tick) ->
  WebConverter.find_interval ht (WebConverter.intervals s) = Some (WebConverter.TelemetryTick j) ->
  let s' := WebConverter.dispatch e s in
  WebConverter.downloads s' = WebConverter.downloads s
  /\ (if WebConverter.fires_of ht e
      then WebConverter.find_interval ht (WebConverter.intervals s')
           = Some (WebConverter.TelemetryTick (S j))
           /\ WebConverter.telemetry s' = nth (j mod 6) WebConverter.telemetryLabels ""
      else WebConverter.find_interval ht (WebConverter.intervals s')
           = Some (WebConverter.TelemetryTick j)
           /\ WebConverter.telemetry s' = WebConverter.telemetry s).
Proof.
  intros R NL FT s'.
  assert (Same : s' = s -> WebConverter.fires_of ht e = false ->
                 WebConverter.downloads s' = WebConverter.downloads s
                 /\ (if WebConverter.fires_of ht e
                     then WebConverter.find_interval ht (WebConverter.intervals s')
                          = Some (WebConverter.TelemetryTick (S j))
                          /\ WebConverter.telemetry s' = nth (j mod 6) WebConverter.telemetryLabels ""
                     else WebConverter.find_interval ht (WebConverter.intervals s')
                          = Some (WebConverter.TelemetryTick j)
                          /\ WebConverter.telemetry s' = WebConverter.telemetry s)).
  { intros -> ->. auto. }
  destruct e as [fs | fmt' | | | | | h ts];
    try (apply Same; [apply (running_controls_off hp ht k); [exact R | discriminate]
                     | reflexivity]).
  clear Same. subst s'. cbn [WebConverter.dispatch WebConverter.fires_of] in *.
  remember (nth (j mod 6) WebConverter.telemetryLabels "") as lbl eqn:Hl.
  destruct R as (L & D & E & B & K & P & N & PT & TT & f & j0 & F & IV).
  assert (Nb : Nat.eqb hp ht = false) by now apply Nat.eqb_neq.
  rewrite IV in FT. cbn [WebConverter.find_interval] in FT.
  rewrite Nb, Nat.eqb_refl in FT. injection FT as ->.
  unfold WebConverter.fireInterval. rewrite IV. cbn [WebConverter.find_interval].
  destruct (Nat.eqb_spec h hp) as [-> | Hp].
  - rewrite Nat.eqb_refl, Nb.
    unfold WebConverter.progressCallback. cbv zeta.
    rewrite <- prog_after_S, (prog_below_100 _ (NL eq_refl)).
    cbn [WebConverter.downloads WebConverter.intervals WebConverter.telemetry
           WebConverter.setSimProgress WebConverter.set_intervals].
    rewrite IV. cbn [WebConverter.store_interval WebConverter.find_interval].
    rewrite Nat.eqb_refl. cbn [WebConverter.find_interval]. rewrite Nb, Nat.eqb_refl. auto.
  - apply not_eq_sym, Nat.eqb_neq in Hp as Hp'. rewrite Hp'.
    destruct (Nat.eqb_spec h ht) as [-> | Ht].
    + rewrite Nat.eqb_refl. unfold WebConverter.telemetryCallback.
      change (List.length WebConverter.telemetryLabels) with 6. rewrite <- Hl.
      cbn [WebConverter.downloads WebConverter.intervals WebConverter.telemetry
             WebConverter.setTelemetry WebConverter.set_intervals].
      rewrite IV. cbn [WebConverter.store_interval WebConverter.find_interval].
      rewrite Nb, Nat.eqb_refl. cbn [WebConverter.find_interval].
      rewrite Nb, Nat.eqb_refl. auto.
    + apply not_eq_sym, Nat.eqb_neq in Ht as Ht'. rewrite Ht'.
      rewrite IV. cbn [WebConverter.find_interval]. rewrite Nb, Nat.eqb_refl. auto.
Qed.

Lemma ticks_cons (ht : nat) (e : WebConverter.Event) (l : list WebConverter.Event) :
  Telemetry.ticks ht (e :: l)
  = (if WebConverter.fires_of ht e then 1 else 0) + Telemetry.ticks ht l.
Proof. unfold Telemetry.ticks. cbn. now destruct (WebConverter.fires_of ht e). Qed.

Lemma running_dispatch_same (hp ht k : nat) (e : WebConverter.Event) (s : WebConverter.State) :
  Invariant.running hp ht k s ->
  (WebConverter.fires_of hp e = true -> S k < WebConverter.last_tick) ->
  Invariant.running hp ht (k + if WebConverter.fires_of hp e then 1 else 0)
    (WebConverter.dispatch e s).
Proof.
  intros R NL.
  pose proof (running_run hp ht [e] k s R) as H.
  rewrite progress_ticks_cons in H. cbn in H. rewrite Nat.add_0_r in H.
  apply H. destruct (WebConverter.fires_of hp e); [specialize (NL eq_refl) |];
    destruct R as (_ & _ & _ & _ & K & _); lia.
Qed.

Lemma running_run_telemetry (hp ht : nat) (events : list WebConverter.Event) :
  forall (k j : nat) (s : WebConverter.State),
    Invariant.running hp ht k s ->
    WebConverter.find_interval ht (WebConverter.intervals s)
    = Some (WebConverter.TelemetryTick j) ->
    WebConverter.telemetry s = Telemetry.label_after j ->
    k + WebConverter.progress_ticks hp events < WebConverter.last_tick ->
    let s' := WebConverter.run events s in
    WebConverter.downloads s' = WebConverter.downloads s
    /\ WebConverter.telemetry s' = Telemetry.label_after (j + Telemetry.ticks ht events).
Proof.
  induction events as [|e l IH]; intros k j s R FT TL B; cbn zeta.
  - cbn. rewrite Nat.add_0_r. auto.
  - rewrite progress_ticks_cons in B. rewrite ticks_cons.
    change (WebConverter.run (e :: l) s) with (WebConverter.run l (WebConverter.dispatch e s)).
    assert (NL : WebConverter.fires_of hp e = true -> S k < WebConverter.last_tick).
    { intros H. rewrite H in B. lia. }
    pose proof (running_dispatch_same hp ht k e s R NL) as R'.
    destruct (running_step hp ht k j e s R NL FT) as (D & T).
    destruct (WebConverter.fires_of ht e) eqn:Fe; destruct T as (FT' & TL').
    + destruct (IH _ (S j) _ R' FT' TL' ltac:(destruct (WebConverter.fires_of hp e); lia))
        as (D' & T').
      rewrite D', D, T'. split; [reflexivity |]. f_equal. lia.
    + rewrite TL in TL'.
      destruct (IH _ j _ R' FT' TL' ltac:(destruct (WebConverter.fires_of hp e); lia))
        as (D' & T').
      rewrite D', D, T'. split; [reflexivity |]. f_equal.
Qed.

Lemma run_start (f : WebConverter.File) (s0 : WebConverter.State) :
  Invariant.idle s0 ->
  let s1 := WebConverter.dispatch (WebConverter.FileChange (Some f)) s0 in
  Invariant.running (WebConverter.nextHandle s0) (S (WebConverter.nextHandle s0)) 0 s1
  /\ WebConverter.find_interval (S (WebConverter.nextHandle s0)) (WebConverter.intervals s1)
     = Some (WebConverter.TelemetryTick 0)
  /\ WebConverter.telemetry s1 = "SYSTEM_IDLE"
  /\ WebConverter.downloads s1 = WebConverter.downloads s0
  /\ WebConverter.format s1 = WebConverter.format s0
  /\ WebConverter.file s1 = Some f.
Proof.
  intros I s1.
  assert (E : s1 = WebConverter.handleFileChange (Some f) s0).
  { unfold s1. cbn [WebConverter.dispatch]. now rewrite (proj1 (idle_view s0 I)). }
  rewrite E. split; [now apply idle_handleFileChange |].
  destruct I as [T I]. destruct s0 as [fmt cb eu fl ld dr er sm tl sp rb pt tt iv nh dl].
  cbn in T, I. injection T as -> -> -> -> -> -> -> ->. subst iv.
  unfold WebConverter.handleFileChange, WebConverter.startConversion,
    WebConverter.call_onErrorUpdate.
  destruct cb; cbn; rewrite Nat.eqb_refl;
    (replace (Nat.eqb nh (S nh)) with false by (symmetry; apply Nat.eqb_neq; lia));
    repeat split.
Qed.

(** X8. The telemetry label of a run. For a file selected in the idle view
    of any state the panel reaches, and any events after it that do not end
    the run: the label shown is SYSTEM_IDLE until the telemetry interval
    first fires, and after its n-th firing the label at position (n - 1) mod 6
    of the six labels; the labels recur every six firings and no other label
    is ever shown. *)
Theorem telemetry_cycles_through_the_labels
  (fmt0 : WebConverter.Format) (cb : bool) (before : list WebConverter.Event)
  (f : WebConverter.File) (events : list WebConverter.Event) :
  let s0 := WebConverter.run before (WebConverter.initial fmt0 cb) in
  let hp := WebConverter.nextHandle s0 in
  let s := WebConverter.run events (WebConverter.dispatch (WebConverter.FileChange (Some f)) s0) in
  WebConverter.view s0 = WebConverter.IdleView ->
  WebConverter.progress_ticks hp events < WebConverter.last_tick ->
  WebConverter.telemetry s = Telemetry.label_after (Telemetry.ticks (S hp) events)
  /\ (forall n, Telemetry.label_after (S n)
                = nth (n mod 6) WebConverter.telemetryLabels "")
  /\ (forall n, Telemetry.label_after (S (n + 6)) = Telemetry.label_after (S n))
  /\ (forall n, In (Telemetry.label_after (S n)) WebConverter.telemetryLabels).
Proof.
  intros s0 hp s V0 Hk.
  assert (I0 : Invariant.idle s0) by (apply idle_of_view; [apply phase_reachable | exact V0]).
  destruct (run_start f s0 I0) as (R & FT & TL & _).
  destruct (running_run_telemetry hp (S hp) events 0 0 _ R FT TL Hk) as (_ & T).
  split; [exact T |]. split; [reflexivity |]. split.
  - intros n. unfold Telemetry.label_after.
    replace (n + 6) with (n + 1 * 6) by lia. now rewrite Nat.Div0.mod_add.
  - intros n. unfold Telemetry.label_after. apply nth_In.
    change (List.length WebConverter.telemetryLabels) with 6.
    apply Nat.mod_upper_bound. lia.
Qed.

Lemma telemetry_cycles_through_the_labels_witness :
  let f := {| WebConverter.name := "report.pdf"; WebConverter.bytes := [] |} in
  let events := (repeat (WebConverter.IntervalFires 2 "t") 8
                 ++ [WebConverter.IntervalFires 1 "t"; WebConverter.ClickNewTask])%list in
  WebConverter.telemetry
    (WebConverter.run events
       (WebConverter.dispatch (WebConverter.FileChange (Some f))
          (WebConverter.initial WebConverter.excel true)))
  = "PARSING_FILE_HEADER".
Proof.
  exact (proj1 (telemetry_cycles_through_the_labels WebConverter.excel true []
                  {| WebConverter.name := "report.pdf"; WebConverter.bytes := [] |}
                  (repeat (WebConverter.IntervalFires 2 "t") 8
                   ++ [WebConverter.IntervalFires 1 "t"; WebConverter.ClickNewTask])%list
                  eq_refl ltac:(vm_compute; lia))).
Defined.

(** X9. A run downloads once, at its end, under the format it started with.
    For a file selected in the idle view of any state the panel reaches:
    whatever happens before the 75th progress tick, nothing is downloaded;
    the 75th tick adds exactly one download, the payload built for the format
    of the moment of selection, under the name with that format's extension,
    and that payload is the one stored; later firings of any interval
    download nothing. *)
Theorem one_download_per_run
  (fmt0 : WebConverter.Format) (cb : bool) (before : list WebConverter.Event)
  (f : WebConverter.File) (events : list WebConverter.Event) (ts : string) :
  let s0 := WebConverter.run before (WebConverter.initial fmt0 cb) in
  let hp := WebConverter.nextHandle s0 in
  let s := WebConverter.run events (WebConverter.dispatch (WebConverter.FileChange (Some f)) s0) in
  let s' := WebConverter.dispatch (WebConverter.IntervalFires hp ts) s in
  let blob := WebConverter.finishConversion_blob (WebConverter.format s0) ts f in
  WebConverter.view s0 = WebConverter.IdleView ->
  WebConverter.progress_ticks hp events < WebConverter.last_tick ->
  WebConverter.downloads s = WebConverter.downloads s0
  /\ (S (WebConverter.progress_ticks hp events) = WebConverter.last_tick ->
      WebConverter.downloads s'
      = (WebConverter.downloads s0
         ++ [(WebConverter.download_name (WebConverter.format s0) (WebConverter.name f), blob)])%list
      /\ WebConverter.resultBlob s' = Some blob
      /\ forall h ts', WebConverter.dispatch (WebConverter.IntervalFires h ts') s' = s').
Proof.
  intros s0 hp s s' blob V0 Hk.
  assert (I0 : Invariant.idle s0) by (apply idle_of_view; [apply phase_reachable | exact V0]).
  destruct (run_start f s0 I0) as (R & FT & TL & D1 & F1 & G1).
  destruct (running_run_telemetry hp (S hp) events 0 0 _ R FT TL Hk) as (D & _).
  destruct (running_run hp (S hp) events 0 _ R Hk) as (R' & F & G).
  fold s in D, R', F, G. cbn [Nat.add] in R'.
  split; [congruence |]. intros HK.
  destruct (running_last_tick hp (S hp) _ ts s R' HK) as (S' & (f' & Hf & B & Dl) & _).
  fold s' in S', B, Dl. rewrite G, G1 in Hf. injection Hf as <-.
  rewrite F, F1 in B, Dl. rewrite D, D1 in Dl.
  split; [exact Dl |]. split; [exact B |].
  intros h ts'. cbn. apply fireInterval_none. apply S'.
Qed.

Lemma one_download_per_run_witness :
  let f := {| WebConverter.name := "report.pdf"; WebConverter.bytes := [] |} in
  let events := repeat (WebConverter.IntervalFires 1 "t") 74 in
  WebConverter.downloads
    (WebConverter.run events
       (WebConverter.dispatch (WebConverter.FileChange (Some f))
          (WebConverter.initial WebConverter.word true)))
  = [].
Proof.
  exact (proj1 (one_download_per_run WebConverter.word true []
                  {| WebConverter.name := "report.pdf"; WebConverter.bytes := [] |}
                  (repeat (WebConverter.IntervalFires 1 "t") 74) "t"
                  eq_refl ltac:(vm_compute; lia))).
Defined.

(** ** The download name of well-formed names *)

Lemma append_empty_r (s : string) : s ++ "" = s.
Proof. induction s as [|c s IH]; cbn; [reflexivity | now rewrite IH]. Qed.

Lemma length_app_string (a b : string) :
  String.length (a ++ b) = String.length a + String.length b.
Proof. induction a as [|c a IH]; cbn; [reflexivity | now rewrite IH]. Qed.

Lemma replace_absent (s pat rep : string) :
  JS.includes s pat = false -> JS.replace s pat rep = s.
Proof.
  induction s as [|c s IH]; cbn; intros H; apply orb_false_iff in H as [H1 H2]; rewrite H1.
  - reflexivity.
  - now rewrite IH.
Qed.

(** ".pdf" has no border: an occurrence that starts inside [s] and runs into
    a following ".pdf" lies within [s]. *)
Lemma startsWith_pdf_inside (s : string) :
  s <> "" -> JS.startsWith (s ++ ".pdf") ".pdf" = true -> JS.startsWith s ".pdf" = true.
Proof.
  intros Hs H.
  destruct s as [|c1 [|c2 [|c3 [|c4 s]]]]; [contradiction | | | | exact H];
    cbn [JS.startsWith append] in H;
    repeat match type of H with
           | context [Ascii.eqb ?a ?b] => is_var b; destruct (Ascii.eqb a b)
           end;
    cbn in H; discriminate.
Qed.

Lemma replace_pdf_suffix (base : string) :
  JS.includes base ".pdf" = false -> JS.replace (base ++ ".pdf") ".pdf" "" = base.
Proof.
  induction base as [|c b IH]; intros H; [reflexivity |].
  assert (Hs : JS.startsWith (String c b ++ ".pdf") ".pdf" = false).
  { destruct (JS.startsWith (String c b ++ ".pdf") ".pdf") eqn:E; [| reflexivity].
    apply startsWith_pdf_inside in E; [| discriminate].
    cbn [JS.includes] in H. now rewrite E in H. }
  cbn [JS.includes] in H. apply orb_false_iff in H as [_ H].
  change (JS.replace (String c b ++ ".pdf") ".pdf" "")
    with (if JS.startsWith (String c b ++ ".pdf") ".pdf"
          then "" ++ JS.slice (String.length ".pdf") (String c b ++ ".pdf")
          else String c (JS.replace (b ++ ".pdf") ".pdf" "")).
  now rewrite Hs, IH.
Qed.

Lemma endsWith_app (base p : string) : JS.endsWith (base ++ p) p = true.
Proof.
  induction base as [|c b IH].
  - destruct p; cbn; now rewrite ?Ascii.eqb_refl, ?String.eqb_refl.
  - cbn [append JS.endsWith]. rewrite IH. apply orb_true_r.
Qed.

Lemma endsWith_includes (s p : string) :
  JS.endsWith s p = true -> JS.includes s p = true.
Proof.
  induction s as [|c s IH]; cbn [JS.endsWith JS.includes]; intros H;
    apply orb_true_iff in H as [H | H].
  - apply String.eqb_eq in H as <-. reflexivity.
  - discriminate.
  - apply String.eqb_eq in H as <-. apply orb_true_iff. left.
    apply startsWith_app. exists "". now rewrite append_empty_r.
  - rewrite (IH H). apply orb_true_r.
Qed.

Lemma substring_prefix (a b : string) : String.substring 0 (String.length a) (a ++ b) = a.
Proof.
  induction a as [|c a IH]; cbn; [now destruct b | now rewrite IH].
Qed.

(** X10. For a name without ".pdf", and for a name whose only ".pdf" is its
    suffix, the download name is what the suffix rule gives: the name
    without that suffix, then "_v42." and the extension of the format. *)
Theorem download_name_of_plain_names (fmt : WebConverter.Format) (base : string) :
  JS.includes base ".pdf" = false ->
  WebConverter.download_name fmt (base ++ ".pdf") = base ++ "_v42." ++ WebConverter.extension fmt
  /\ WebConverter.download_name fmt base = base ++ "_v42." ++ WebConverter.extension fmt
  /\ WebConverter.download_name fmt (base ++ ".pdf")
     = WebConverter.suffix_download_name fmt (base ++ ".pdf")
  /\ WebConverter.download_name fmt base = WebConverter.suffix_download_name fmt base.
Proof.
  intros H. unfold WebConverter.download_name, WebConverter.suffix_download_name,
    WebConverter.strip_pdf_suffix.
  rewrite (replace_pdf_suffix base H), (replace_absent base ".pdf" "" H), endsWith_app.
  rewrite length_app_string. cbn [String.length].
  replace (String.length base + 4 - 4) with (String.length base) by lia.
  rewrite substring_prefix.
  destruct (JS.endsWith base ".pdf") eqn:E; [| auto].
  apply endsWith_includes in E. congruence.
Qed.

Lemma download_name_of_plain_names_witness :
  WebConverter.download_name WebConverter.word "Q3 report.final.pdf" = "Q3 report.final_v42.txt".
Proof.
  exact (proj1 (download_name_of_plain_names WebConverter.word "Q3 report.final" eq_refl)).
Defined.

(** ** The bytes of the files are never used *)

Lemma find_interval_erased (h : nat) (tbl : list (nat * WebConverter.Interval)) :
  WebConverter.find_interval h (map Erase.entry tbl)
  = option_map Erase.interval (WebConverter.find_interval h tbl).
Proof.
  induction tbl as [|[k cb] rest IH]; cbn; [reflexivity |].
  now destruct (Nat.eqb k h).
Qed.

Lemma store_interval_erased (h : nat) (cb : WebConverter.Interval)
  (tbl : list (nat * WebConverter.Interval)) :
  WebConverter.store_interval h (Erase.interval cb) (map Erase.entry tbl)
  = map Erase.entry (WebConverter.store_interval h cb tbl).
Proof.
  induction tbl as [|[k old] rest IH]; cbn; [reflexivity |].
  destruct (Nat.eqb k h); cbn; [reflexivity | now rewrite IH].
Qed.

Lemma clear_erased (h : nat) (tbl : list (nat * WebConverter.Interval)) :
  filter (fun e => negb (Nat.eqb (fst e) h)) (map Erase.entry tbl)
  = map Erase.entry (filter (fun e => negb (Nat.eqb (fst e) h)) tbl).
Proof.
  induction tbl as [|[k cb] rest IH]; cbn; [reflexivity |].
  destruct (Nat.eqb k h); cbn; now rewrite IH.
Qed.

Lemma erase_handleFileChange (fs : option WebConverter.File) (s : WebConverter.State) :
  Erase.state (WebConverter.handleFileChange fs s)
  = WebConverter.handleFileChange (option_map Erase.file fs) (Erase.state s).
Proof.
  destruct s as [fmt cb eu fl ld dr er sm tl sp rb pt tt iv nh dl].
  destruct fs as [f|]; [| reflexivity].
  unfold Erase.state, WebConverter.handleFileChange, WebConverter.startConversion,
    WebConverter.call_onErrorUpdate.
  destruct cb; cbn; rewrite <- !app_assoc, map_app; reflexivity.
Qed.

Lemma erase_resetTask (s : WebConverter.State) :
  Erase.state (WebConverter.resetTask s) = WebConverter.resetTask (Erase.state s).
Proof.
  destruct s as [fmt cb eu fl ld dr er sm tl sp rb pt tt iv nh dl].
  unfold Erase.state, WebConverter.resetTask, WebConverter.call_onErrorUpdate.
  destruct cb; reflexivity.
Qed.

#[local] Arguments Erase.file : simpl never.

Lemma store_progress_erased (h : nat) (p : float) (f : WebConverter.File)
  (fmt : WebConverter.Format) (tbl : list (nat * WebConverter.Interval)) :
  WebConverter.store_interval h (WebConverter.ProgressTick p (Erase.file f) fmt)
    (map Erase.entry tbl)
  = map Erase.entry (WebConverter.store_interval h (WebConverter.ProgressTick p f fmt) tbl).
Proof. exact (store_interval_erased h (WebConverter.ProgressTick p f fmt) tbl). Qed.

Lemma store_telemetry_erased (h j : nat) (tbl : list (nat * WebConverter.Interval)) :
  WebConverter.store_interval h (WebConverter.TelemetryTick j) (map Erase.entry tbl)
  = map Erase.entry (WebConverter.store_interval h (WebConverter.TelemetryTick j) tbl).
Proof. exact (store_interval_erased h (WebConverter.TelemetryTick j) tbl). Qed.

Lemma erase_fireInterval (h : nat) (ts : string) (s : WebConverter.State) :
  Erase.state (WebConverter.fireInterval h ts s)
  = WebConverter.fireInterval h ts (Erase.state s).
Proof.
  destruct s as [fmt cb eu fl ld dr er sm tl sp rb pt tt iv nh dl].
  unfold WebConverter.fireInterval, Erase.state.
  cbn [WebConverter.intervals WebConverter.setFile WebConverter.set_intervals
         WebConverter.file].
  rewrite find_interval_erased.
  destruct (WebConverter.find_interval h iv) as [[p f fmt' | j] |];
    cbn [option_map Erase.interval]; [| | reflexivity].
  - unfold WebConverter.progressCallback. cbv zeta.
    destruct (leb 100 (p + WebConverter.increment p)).
    + unfold WebConverter.finishConversion, WebConverter.cleanupTimers,
        WebConverter.clearInterval.
      destruct pt as [hp|], tt as [ht|]; cbn;
        rewrite ?store_progress_erased, ?clear_erased; destruct fmt'; reflexivity.
    + cbn. now rewrite store_progress_erased.
  - unfold WebConverter.telemetryCallback. cbn. now rewrite store_telemetry_erased.
Qed.

Lemma erase_dispatch (e : WebConverter.Event) (s : WebConverter.State) :
  Erase.state (WebConverter.dispatch e s)
  = WebConverter.dispatch (Erase.event e) (Erase.state s).
Proof.
  destruct e as [fs | fmt' | | | | | h ts]; cbn [WebConverter.dispatch Erase.event].
  - change (WebConverter.view (Erase.state s)) with (WebConverter.view s).
    destruct (WebConverter.view s); try reflexivity. apply erase_handleFileChange.
  - change (WebConverter.loading (Erase.state s)) with (WebConverter.loading s).
    destruct (WebConverter.loading s); reflexivity.
  - change (WebConverter.view (Erase.state s)) with (WebConverter.view s).
    destruct (WebConverter.view s); try reflexivity.
    change (WebConverter.resultBlob (Erase.state s)) with (WebConverter.resultBlob s).
    change (WebConverter.file (Erase.state s))
      with (option_map Erase.file (WebConverter.file s)).
    destruct (WebConverter.resultBlob s), (WebConverter.file s); reflexivity.
  - change (WebConverter.view (Erase.state s)) with (WebConverter.view s).
    destruct (WebConverter.view s); try reflexivity. apply erase_resetTask.
  - change (WebConverter.error (Erase.state s)) with (WebConverter.error s).
    destruct (WebConverter.error s); [apply erase_resetTask | reflexivity].
  - change (WebConverter.error (Erase.state s)) with (WebConverter.error s).
    destruct (WebConverter.error s); reflexivity.
  - apply erase_fireInterval.
Qed.

Lemma erase_run (events : list WebConverter.Event) (s : WebConverter.State) :
  Erase.state (WebConverter.run events s)
  = WebConverter.run (map Erase.event events) (Erase.state s).
Proof.
  revert s; induction events as [|e l IH]; intros s; [reflexivity |].
  cbn [map]. change (WebConverter.run (e :: l) s)
    with (WebConverter.run l (WebConverter.dispatch e s)).
  change (WebConverter.run (Erase.event e :: map Erase.event l) (Erase.state s))
    with (WebConverter.run (map Erase.event l)
            (WebConverter.dispatch (Erase.event e) (Erase.state s))).
  now rewrite IH, erase_dispatch.
Qed.

(** X11. Nothing the panel does depends on the bytes of the files. From any
    state, two sequences of events that differ only in the bytes of the
    files selected lead to states that differ only in those bytes: the same
    downloads (names and payloads), the same stored payload, the same
    progress, labels and flags, the same file names, the same values
    forwarded to the host. *)
Theorem runs_agree_up_to_file_bytes
  (events1 events2 : list WebConverter.Event) (s : WebConverter.State) :
  map Erase.event events1 = map Erase.event events2 ->
  let s1 := WebConverter.run events1 s in
  let s2 := WebConverter.run events2 s in
  Erase.state s1 = Erase.state s2
  /\ WebConverter.downloads s1 = WebConverter.downloads s2
  /\ WebConverter.resultBlob s1 = WebConverter.resultBlob s2
  /\ WebConverter.simProgress s1 = WebConverter.simProgress s2
  /\ WebConverter.statusMessage s1 = WebConverter.statusMessage s2
  /\ WebConverter.telemetry s1 = WebConverter.telemetry s2
  /\ WebConverter.view s1 = WebConverter.view s2
  /\ option_map WebConverter.name (WebConverter.file s1)
     = option_map WebConverter.name (WebConverter.file s2)
  /\ WebConverter.errorUpdates s1 = WebConverter.errorUpdates s2.
Proof.
  intros H s1 s2.
  assert (E : Erase.state s1 = Erase.state s2).
  { unfold s1, s2. now rewrite !erase_run, H. }
  split; [exact E |].
  assert (P : forall {A} (p : WebConverter.State -> A),
             (forall x, p (Erase.state x) = p x) -> p s1 = p s2).
  { intros A p Hp. rewrite <- (Hp s1), <- (Hp s2). now rewrite E. }
  repeat split; try (apply P; reflexivity).
  apply (P _ (fun x => option_map WebConverter.name (WebConverter.file x))).
  intros x. cbn. now destruct (WebConverter.file x).
Qed.

Lemma runs_agree_up_to_file_bytes_witness :
  let f1 := {| WebConverter.name := "report.pdf"; WebConverter.bytes := [Byte.x25; Byte.x50] |} in
  let f2 := {| WebConverter.name := "report.pdf"; WebConverter.bytes := [Byte.x00] |} in
  let ticks := repeat (WebConverter.IntervalFires 1 "t") 75 in
  f1 <> f2
  /\ WebConverter.downloads
       (WebConverter.run (WebConverter.FileChange (Some f1) :: ticks)
          (WebConverter.initial WebConverter.word true))
     = WebConverter.downloads
         (WebConverter.run (WebConverter.FileChange (Some f2) :: ticks)
            (WebConverter.initial WebConverter.word true)).
Proof.
  split; [discriminate |].
  exact (proj1 (proj2 (runs_agree_up_to_file_bytes
                         (WebConverter.FileChange
                            (Some {| WebConverter.name := "report.pdf";
                                     WebConverter.bytes := [Byte.x25; Byte.x50] |})
                          :: repeat (WebConverter.IntervalFires 1 "t") 75)
                         (WebConverter.FileChange
                            (Some {| WebConverter.name := "report.pdf";
                                     WebConverter.bytes := [Byte.x00] |})
                          :: repeat (WebConverter.IntervalFires 1 "t") 75)
                         (WebConverter.initial WebConverter.word true) eq_refl))).
Defined.

(** ** Downloading again, and selecting a file over a run *)

(** X12. RE-DOWNLOAD repeats the download and touches nothing else. In every
    state the panel reaches: outside the succeeded view the click does
    nothing; in the succeeded view a payload and a file are there, and two
    clicks add two equal downloads, the stored payload under the name for the
    current format, while every task field, the format and the (empty) set of
    intervals stay as they were. *)
Theorem redownload_repeats_without_mutation
  (fmt : WebConverter.Format) (cb : bool) (events : list WebConverter.Event) :
  let s := WebConverter.run events (WebConverter.initial fmt cb) in
  let s2 := WebConverter.run [WebConverter.ClickReDownload; WebConverter.ClickReDownload] s in
  (WebConverter.view s <> WebConverter.SucceededView ->
   WebConverter.dispatch WebConverter.ClickReDownload s = s)
  /\ (WebConverter.view s = WebConverter.SucceededView ->
      exists blob f,
        WebConverter.resultBlob s = Some blob
        /\ WebConverter.file s = Some f
        /\ WebConverter.downloads s2
           = (WebConverter.downloads s
              ++ [(WebConverter.download_name (WebConverter.format s) (WebConverter.name f), blob);
                  (WebConverter.download_name (WebConverter.format s) (WebConverter.name f), blob)])%list
        /\ WebConverter.task_fields s2 = WebConverter.task_fields s
        /\ WebConverter.format s2 = WebConverter.format s
        /\ WebConverter.intervals s2 = []).
Proof.
  intros s s2. split.
  - intros V. cbn. destruct (WebConverter.view s); [reflexivity | reflexivity | contradiction].
  - intros V. pose proof (phase_reachable fmt cb events) as Ph. fold s in Ph.
    destruct (succeeded_of_view s Ph V) as (L & D & E & I & P & M & blob & f & B & F).
    exists blob, f. split; [exact B |]. split; [exact F |].
    unfold s2, WebConverter.run. cbn [fold_left WebConverter.dispatch].
    rewrite V, B, F.
    assert (V' : WebConverter.view
                   (WebConverter.triggerDownload (WebConverter.format s) blob
                      (WebConverter.name f) s) = WebConverter.SucceededView) by exact V.
    rewrite V'.
    change (WebConverter.resultBlob (WebConverter.triggerDownload _ _ _ s))
      with (WebConverter.resultBlob s).
    change (WebConverter.file (WebConverter.triggerDownload _ _ _ s))
      with (WebConverter.file s).
    rewrite B, F. cbn. rewrite <- app_assoc. repeat split. exact I.
Qed.

Lemma redownload_repeats_without_mutation_witness :
  let f := {| WebConverter.name := "report.pdf"; WebConverter.bytes := [] |} in
  let done := WebConverter.run
                (WebConverter.FileChange (Some f)
                 :: repeat (WebConverter.IntervalFires 1 "t") 75)
                (WebConverter.initial WebConverter.excel true) in
  exists blob f',
    WebConverter.resultBlob done = Some blob /\ WebConverter.file done = Some f'
    /\ List.length
         (WebConverter.downloads
            (WebConverter.run [WebConverter.ClickReDownload; WebConverter.ClickReDownload] done))
       = 3.
Proof.
  destruct (proj2 (redownload_repeats_without_mutation WebConverter.excel true
                     (WebConverter.FileChange
                        (Some {| WebConverter.name := "report.pdf"; WebConverter.bytes := [] |})
                      :: repeat (WebConverter.IntervalFires 1 "t") 75))
              ltac:(vm_compute; reflexivity))
    as (blob & f' & B & F & Dl & _).
  exists blob, f'. split; [exact B |]. split; [exact F |].
  cbv zeta. rewrite Dl, length_app. vm_compute. reflexivity.
Defined.

Lemma handleFileChange_timers (g : WebConverter.File) (s : WebConverter.State) :
  let s' := WebConverter.handleFileChange (Some g) s in
  WebConverter.intervals s'
  = (WebConverter.intervals s
     ++ [ (WebConverter.nextHandle s,
           WebConverter.ProgressTick 0 g (WebConverter.format s));
          (S (WebConverter.nextHandle s), WebConverter.TelemetryTick 0) ])%list
  /\ WebConverter.progressTimer s' = Some (WebConverter.nextHandle s)
  /\ WebConverter.telemetryTimer s' = Some (S (WebConverter.nextHandle s)).
Proof.
  destruct s as [fmt cb eu fl ld dr er sm tl sp rb pt tt iv nh dl].
  unfold WebConverter.handleFileChange, WebConverter.startConversion,
    WebConverter.call_onErrorUpdate.
  destruct cb; cbn; rewrite <- app_assoc; repeat split.
Qed.

Lemma cleanupTimers_intervals (a b : nat) (s : WebConverter.State) :
  WebConverter.progressTimer s = Some a -> WebConverter.telemetryTimer s = Some b ->
  WebConverter.intervals (WebConverter.cleanupTimers s)
  = filter (fun e => negb (Nat.eqb (fst e) b))
      (filter (fun e => negb (Nat.eqb (fst e) a)) (WebConverter.intervals s)).
Proof.
  destruct s as [fmt cb eu fl ld dr er sm tl sp rb pt tt iv nh dl]. cbn.
  intros -> ->. reflexivity.
Qed.

(** X13. [handleFileChange] does not cancel a run in progress. Called with a
    file on a running task (the rendered input never does so), it starts two
    new intervals, points both refs at them and leaves the two intervals of
    the earlier run active; [cleanupTimers] then clears the new ones only, so
    the earlier ones keep firing. *)
Theorem handleFileChange_orphans_running_intervals
  (hp ht k : nat) (g : WebConverter.File) (s : WebConverter.State) :
  Invariant.running hp ht k s ->
  hp < WebConverter.nextHandle s -> ht < WebConverter.nextHandle s ->
  let s' := WebConverter.handleFileChange (Some g) s in
  let c := WebConverter.cleanupTimers s' in
  map fst (WebConverter.intervals s')
  = [hp; ht; WebConverter.nextHandle s; S (WebConverter.nextHandle s)]
  /\ WebConverter.progressTimer s' = Some (WebConverter.nextHandle s)
  /\ WebConverter.telemetryTimer s' = Some (S (WebConverter.nextHandle s))
  /\ WebConverter.find_interval hp (WebConverter.intervals s')
     = WebConverter.find_interval hp (WebConverter.intervals s)
  /\ WebConverter.find_interval ht (WebConverter.intervals s')
     = WebConverter.find_interval ht (WebConverter.intervals s)
  /\ map fst (WebConverter.intervals c) = [hp; ht]
  /\ WebConverter.find_interval hp (WebConverter.intervals c)
     = WebConverter.find_interval hp (WebConverter.intervals s)
  /\ WebConverter.find_interval ht (WebConverter.intervals c)
     = WebConverter.find_interval ht (WebConverter.intervals s).
Proof.
  intros R Hp Ht s' c.
  destruct R as (_ & _ & _ & _ & _ & _ & N & _ & _ & f & j & _ & IV).
  destruct (handleFileChange_timers g s) as (I' & PT' & TT'). fold s' in I', PT', TT'.
  assert (Ic : WebConverter.intervals c
               = filter (fun e => negb (Nat.eqb (fst e) (S (WebConverter.nextHandle s))))
                   (filter (fun e => negb (Nat.eqb (fst e) (WebConverter.nextHandle s)))
                      (WebConverter.intervals s')))
    by (apply cleanupTimers_intervals; assumption).
  rewrite Ic, I', PT', TT', IV. clear Ic I' PT' TT' IV c s'.
  set (nh := WebConverter.nextHandle s) in *.
  assert (E1 : Nat.eqb hp ht = false) by now apply Nat.eqb_neq.
  assert (E2 : Nat.eqb hp nh = false) by (apply Nat.eqb_neq; lia).
  assert (E3 : Nat.eqb ht nh = false) by (apply Nat.eqb_neq; lia).
  assert (E4 : Nat.eqb hp (S nh) = false) by (apply Nat.eqb_neq; lia).
  assert (E5 : Nat.eqb ht (S nh) = false) by (apply Nat.eqb_neq; lia).
  assert (E6 : Nat.eqb (S nh) nh = false) by (apply Nat.eqb_neq; lia).
  cbn [app map fst filter WebConverter.find_interval].
  rewrite ?Nat.eqb_refl, ?E1, ?E2, ?E3, ?E4, ?E5, ?E6.
  cbn [negb map fst filter WebConverter.find_interval].
  rewrite ?Nat.eqb_refl, ?E1, ?E2, ?E3, ?E4, ?E5, ?E6.
  cbn [negb map fst filter WebConverter.find_interval].
  rewrite ?Nat.eqb_refl, ?E1, ?E2, ?E3, ?E4, ?E5, ?E6.
  repeat split.
Qed.

Lemma handleFileChange_orphans_running_intervals_witness :
  let f := {| WebConverter.name := "a.pdf"; WebConverter.bytes := [] |} in
  let g := {| WebConverter.name := "b.pdf"; WebConverter.bytes := [] |} in
  let mid := WebConverter.handleFileChange (Some f) (WebConverter.initial WebConverter.excel true) in
  map fst (WebConverter.intervals
             (WebConverter.cleanupTimers (WebConverter.handleFileChange (Some g) mid)))
  = [1; 2].
Proof.
  refine (proj1 (proj2 (proj2 (proj2 (proj2 (proj2
            (handleFileChange_orphans_running_intervals 1 2 0
               {| WebConverter.name := "b.pdf"; WebConverter.bytes := [] |}
               (WebConverter.handleFileChange
                  (Some {| WebConverter.name := "a.pdf"; WebConverter.bytes := [] |})
                  (WebConverter.initial WebConverter.excel true))
               _ _ _)))))));
    [apply (idle_handleFileChange _ (WebConverter.initial WebConverter.excel true)),
       idle_initial
    | vm_compute; lia | vm_compute; lia].
Defined.

(** ** What the texts carry *)

Lemma append_inv_head (p a b : string) : p ++ a = p ++ b -> a = b.
Proof.
  induction p as [|c p IH]; cbn; intros H; [exact H |]. injection H as H. auto.
Qed.

Lemma append_inv_tail (a b t : string) : a ++ t = b ++ t -> a = b.
Proof.
  revert b; induction a as [|c a IH]; intros [|d b] H; cbn in H.
  - reflexivity.
  - apply (f_equal String.length) in H. cbn in H. rewrite length_app_string in H. lia.
  - apply (f_equal String.length) in H. cbn in H. rewrite length_app_string in H. lia.
  - injection H as -> H. f_equal. auto.
Qed.

(** X14. The text payload carries the file name and the timestamp, the
    spreadsheet neither. Under word, two payloads are equal exactly when the
    names and the timestamps are; under excel, the payload is the same for
    every file and every timestamp. *)
Theorem text_payload_carries_name_and_time
  (ts1 ts2 : string) (f1 f2 : WebConverter.File) :
  (WebConverter.finishConversion_blob WebConverter.word ts1 f1
   = WebConverter.finishConversion_blob WebConverter.word ts1 f2
   <-> WebConverter.name f1 = WebConverter.name f2)
  /\ (WebConverter.finishConversion_blob WebConverter.word ts1 f1
      = WebConverter.finishConversion_blob WebConverter.word ts2 f1
      <-> ts1 = ts2)
  /\ WebConverter.finishConversion_blob WebConverter.excel ts1 f1
     = WebConverter.finishConversion_blob WebConverter.excel ts2 f2.
Proof.
  split; [| split; [| reflexivity]].
  - split; [| intros H; cbn; now rewrite H].
    intros H. cbn in H. injection H as H. now apply append_inv_tail in H.
  - split; [| intros ->; reflexivity].
    intros H. cbn in H. injection H as H. apply append_inv_head in H.
    now injection H.
Qed.

(** X15. Each error value has an alert of its own: two alerts are the same
    message exactly when they embed the same value, and no canned reply is
    ever taken for an alert. *)
Theorem alert_text_identifies_the_error (e e' : string) (query : string) :
  (AIAssistant.alert e = AIAssistant.alert e' <-> e = e')
  /\ AIAssistant.is_alert (AIAssistant.alert e) = true
  /\ AIAssistant.is_alert
       {| AIAssistant.role := AIAssistant.ai;
          AIAssistant.text := AIAssistant.getStaticResponse query |} = false.
Proof.
  split; [| split; [reflexivity |]].
  - split; [| intros ->; reflexivity].
    intros H. unfold AIAssistant.alert, AIAssistant.alert_text in H. cbn in H.
    injection H as H. now apply append_inv_tail in H.
  - pose proof (reply_is_plain query) as R. unfold Derived.is_plain_ai in R.
    cbn [AIAssistant.role] in R. now apply negb_true_iff in R.
Qed.
